(** * OpenWhispr: model registry, provider resolver, prompt formatter, settings

  A shallow embedding of [src/models/ModelRegistry.ts] and
  [src/hooks/useSettings.ts].  A JavaScript string is modelled by a
  [string], one character for each code unit; the catalog
  [modelRegistryData.json] is a parameter of every definition that reads
  it. *)

From Stdlib Require Import Ascii ZArith Lia.
From stdpp Require Import base strings list gmap.

(** ** JavaScript string primitives *)

Module Js.

(** [String.prototype.length] *)
Definition len (s : string) : nat := String.length s.

(** [s.substring(0, n)] *)
Fixpoint take (n : nat) (s : string) : string :=
  match n, s with
  | S n', String c s' => String c (take n' s')
  | _, _ => ""
  end.

(** [s.substring(n)] *)
Fixpoint drop (n : nat) (s : string) : string :=
  match n, s with
  | S n', String _ s' => drop n' s'
  | _, _ => s
  end.

(** [s.indexOf(pat)]: the least position at which [pat] occurs in [s];
    [None] stands for the result [-1]. *)
Fixpoint indexOf (s pat : string) : option nat :=
  if String.prefix pat s then Some 0
  else match s with
       | "" => None
       | String _ s' => S <$> indexOf s' pat
       end.

(** [s.includes(pat)] *)
Definition includes (s pat : string) : bool :=
  match indexOf s pat with Some _ => true | None => false end.

(** The abstract operation GetSubstitution of ECMA-262 for a string search
    value: there are no captures, so the template references are [$$] (a
    dollar sign), [$&] (the matched text), [$`] (what precedes the match)
    and [$'] (what follows it); [$n] and [$<] have nothing to refer to and
    are copied as they stand, like every other character. *)
Fixpoint GetSubstitution (matched preceding following template : string) : string :=
  match template with
  | "" => ""
  | String c rest =>
      let literal := String c (GetSubstitution matched preceding following rest) in
      if Ascii.eqb c "$" then
        match rest with
        | "" => literal
        | String d rest' =>
            let continue := GetSubstitution matched preceding following rest' in
            if Ascii.eqb d "$" then "$" +:+ continue
            else if Ascii.eqb d "&" then matched +:+ continue
            else if Ascii.eqb d "`" then preceding +:+ continue
            else if Ascii.eqb d "'" then following +:+ continue
            else literal
        end
      else literal
  end.

(** [s.replace(pat, replaceValue)] with a string [pat] and a string
    [replaceValue]: only the first occurrence of [pat] is replaced, and
    the replacement text is the expansion of [replaceValue]. *)
Definition replace (s pat replaceValue : string) : string :=
  match indexOf s pat with
  | None => s
  | Some position =>
      let preceding := take position s in
      let following := drop (position + len pat) s in
      preceding +:+ GetSubstitution pat preceding following replaceValue +:+ following
  end.

(** [a || b] on strings: the empty string is the only falsy one. *)
Definition or (a b : string) : string :=
  if String.eqb a "" then b else a.

(** [String(b)] on a boolean *)
Definition String_of_bool (b : bool) : string :=
  if b then "true" else "false".

End Js.

(** ** ModelRegistry.ts: the prompt formatter *)

Definition createPromptFormatter (template : string) : string → string → string :=
  fun text systemPrompt =>
    Js.replace (Js.replace template "{system}" systemPrompt) "{user}" text.

(** ** ModelRegistry.ts: catalog data *)

Module ModelDefinition.
Record t := {
  id : string;
  name : string;
  size : string;
  sizeBytes : Z;
  description : string;
  fileName : string;
  quantization : string;
  contextLength : Z;
  hfRepo : string;
  recommended : option bool;
}.
End ModelDefinition.

Module LocalProviderData.
Record t := {
  id : string;
  name : string;
  baseUrl : string;
  promptTemplate : string;
  models : list ModelDefinition.t;
}.
End LocalProviderData.

Module ModelProvider.
Record t := {
  id : string;
  name : string;
  baseUrl : string;
  models : list ModelDefinition.t;
  formatPrompt : string → string → string;
  getDownloadUrl : ModelDefinition.t → string;
}.
End ModelProvider.

Module CloudModelDefinition.
Record t := {
  id : string;
  name : string;
  description : string;
  disableThinking : option bool;
}.
End CloudModelDefinition.

Module CloudProviderData.
Record t := {
  id : string;
  name : string;
  models : list CloudModelDefinition.t;
}.
End CloudProviderData.

(** The part of [modelRegistryData.json] read by the functions below.  The
  transcription providers and the whisper models are only passed through
  by the registry and are left out. *)
Module ModelRegistryData.
Record t := {
  cloudProviders : list CloudProviderData.t;
  localProviders : list LocalProviderData.t;
}.
End ModelRegistryData.

(** ** Insertion-ordered containers of JavaScript *)

(** [Map<string, V>]: iteration follows the order in which keys were first
  inserted; [set] on a key already present replaces the value where the
  key stands. *)
Module JsMap.
Definition t (V : Type) := list (string * V).

Definition empty {V} : t V := [].

Fixpoint set {V} (k : string) (v : V) (m : t V) : t V :=
  match m with
  | [] => [(k, v)]
  | (k', v') :: m' =>
      if String.eqb k' k then (k, v) :: m' else (k', v') :: set k v m'
  end.

Fixpoint get {V} (k : string) (m : t V) : option V :=
  match m with
  | [] => None
  | (k', v') :: m' => if String.eqb k' k then Some v' else get k m'
  end.

Definition values {V} (m : t V) : list V := map snd m.
End JsMap.

(** A plain object used as a record from string keys to values.  Own string
  keys are kept in creation order; [Object.entries] lists the keys that
  are array indices first, in ascending numeric order, then the others in
  creation order.  An assignment to the key [__proto__] reaches the setter
  inherited from [Object.prototype] and creates no own property. *)
Module JsObject.
Definition t (V : Type) := list (string * V).

Definition empty {V} : t V := [].

Definition assign {V} (k : string) (v : V) (o : t V) : t V :=
  if String.eqb k "__proto__" then o else JsMap.set k v o.

Definition is_digit (c : ascii) : bool :=
  (48 <=? nat_of_ascii c) && (nat_of_ascii c <=? 57).

Fixpoint digits_value (acc : N) (s : string) : option N :=
  match s with
  | "" => Some acc
  | String c s' =>
      if is_digit c
      then digits_value (10 * acc + N.of_nat (nat_of_ascii c - 48)) s'
      else None
  end.

(** The numeric value of a key that is an array index: a canonical
    decimal numeral (no leading zero) below [2^32 - 1]. *)
Definition array_index (k : string) : option N :=
  match k with
  | "" => None
  | String c rest =>
      if Ascii.eqb c "0" && negb (String.eqb rest "") then None
      else match digits_value 0 k with
           | Some n => if (n <? 4294967295)%N then Some n else None
           | None => None
           end
  end.

Definition index_entries {V} (o : t V) : list (N * (string * V)) :=
  omap (fun e => (fun n => (n, e)) <$> array_index (fst e)) o.

Definition named_entries {V} (o : t V) : list (string * V) :=
  filter (fun e => array_index (fst e) = None) o.

Fixpoint insert_sorted {A} (x : N * A) (l : list (N * A)) : list (N * A) :=
  match l with
  | [] => [x]
  | y :: l' => if (fst x <=? fst y)%N then x :: l else y :: insert_sorted x l'
  end.

Definition sort_by_index {A} (l : list (N * A)) : list (N * A) :=
  foldr insert_sorted [] l.

Definition entries {V} (o : t V) : list (string * V) :=
  map snd (sort_by_index (index_entries o)) ++ named_entries o.
End JsObject.

(** ** ModelRegistry.ts: the registry *)

(** [ModelDefinition & { providerId: string }] *)
Record ModelWithProviderId := {
  model : ModelDefinition.t;
  providerId : string;
}.

Module ModelRegistry.

Record t := { providers : JsMap.t ModelProvider.t }.

(** The field initialiser [providers = new Map()]. *)
Definition new : t := {| providers := JsMap.empty |}.

Definition registerProvider (provider : ModelProvider.t) (this : t) : t :=
  {| providers := JsMap.set (ModelProvider.id provider) provider (providers this) |}.

Definition getProvider (providerId : string) (this : t) : option ModelProvider.t :=
  JsMap.get providerId (providers this).

Definition getAllProviders (this : t) : list ModelProvider.t :=
  JsMap.values (providers this).

Definition getModel (modelId : string) (this : t)
  : option (ModelDefinition.t * ModelProvider.t) :=
  (fix scan (ps : list ModelProvider.t) :=
     match ps with
     | [] => None
     | provider :: ps' =>
         match find (fun m => String.eqb (ModelDefinition.id m) modelId)
                 (ModelProvider.models provider) with
         | Some model => Some (model, provider)
         | None => scan ps'
         end
     end) (JsMap.values (providers this)).

(** The two nested loops, each [push] appending at the end of [models]. *)
Definition getAllModels (this : t) : list ModelWithProviderId :=
  fold_left
    (fun models provider =>
       fold_left
         (fun models model =>
            models ++ [{| model := model; providerId := ModelProvider.id provider |}])
         (ModelProvider.models provider) models)
    (JsMap.values (providers this)) [].

Definition getCloudProviders (modelData : ModelRegistryData.t) : list CloudProviderData.t :=
  ModelRegistryData.cloudProviders modelData.

(** The provider object registered for one catalog entry. *)
Definition providerFromData (providerData : LocalProviderData.t) : ModelProvider.t :=
  let formatPrompt := createPromptFormatter (LocalProviderData.promptTemplate providerData) in
  {| ModelProvider.id := LocalProviderData.id providerData;
     ModelProvider.name := LocalProviderData.name providerData;
     ModelProvider.baseUrl := LocalProviderData.baseUrl providerData;
     ModelProvider.models := LocalProviderData.models providerData;
     ModelProvider.formatPrompt := formatPrompt;
     ModelProvider.getDownloadUrl := fun model =>
       LocalProviderData.baseUrl providerData +:+ "/" +:+ ModelDefinition.hfRepo model
         +:+ "/resolve/main/" +:+ ModelDefinition.fileName model |}.

Definition registerProvidersFromData (modelData : ModelRegistryData.t) (this : t) : t :=
  let localProviders := ModelRegistryData.localProviders modelData in
  fold_left (fun this providerData => registerProvider (providerFromData providerData) this)
    localProviders this.

(** [getInstance()] on first use: the constructor seeds the registry from the
    catalog. *)
Definition getInstance (modelData : ModelRegistryData.t) : t :=
  registerProvidersFromData modelData new.

End ModelRegistry.

Definition modelRegistry (modelData : ModelRegistryData.t) : ModelRegistry.t :=
  ModelRegistry.getInstance modelData.

(** ** ModelRegistry.ts: the reasoning-provider view and the resolver *)

Record ReasoningModel := {
  value : string;
  label : string;
  rm_description : string;
}.

Record ReasoningProvider := {
  rp_name : string;
  rp_models : list ReasoningModel;
}.

Definition ReasoningProviders := JsObject.t ReasoningProvider.

Record ReasoningModelWithProvider := {
  base : ReasoningModel;
  provider : string;
  fullLabel : string;
}.

Definition buildReasoningProviders (modelData : ModelRegistryData.t) : ReasoningProviders :=
  let providers :=
    fold_left
      (fun providers cloudProvider =>
         JsObject.assign (CloudProviderData.id cloudProvider)
           {| rp_name := CloudProviderData.name cloudProvider;
              rp_models :=
                map (fun m => {| value := CloudModelDefinition.id m;
                                 label := CloudModelDefinition.name m;
                                 rm_description := CloudModelDefinition.description m |})
                  (CloudProviderData.models cloudProvider) |}
           providers)
      (ModelRegistry.getCloudProviders modelData) JsObject.empty in
  JsObject.assign "local"
    {| rp_name := "Local AI";
       rp_models :=
         map (fun m => {| value := ModelDefinition.id (model m);
                          label := ModelDefinition.name (model m);
                          rm_description :=
                            ModelDefinition.description (model m) +:+ " ("
                              +:+ ModelDefinition.size (model m) +:+ ")" |})
           (ModelRegistry.getAllModels (modelRegistry modelData)) |}
    providers.

(** The module constant, built once when the module is loaded. *)
Definition REASONING_PROVIDERS (modelData : ModelRegistryData.t) : ReasoningProviders :=
  buildReasoningProviders modelData.

Definition getAllReasoningModels (modelData : ModelRegistryData.t)
  : list ReasoningModelWithProvider :=
  flat_map
    (fun '(providerId, provider) =>
       map (fun model => {| base := model;
                            provider := providerId;
                            fullLabel := rp_name provider +:+ " " +:+ label model |})
         (rp_models provider))
    (JsObject.entries (REASONING_PROVIDERS modelData)).

Definition getReasoningModelLabel (modelData : ModelRegistryData.t) (modelId : string) : string :=
  match find (fun m => String.eqb (value (base m)) modelId) (getAllReasoningModels modelData) with
  | Some model => Js.or (fullLabel model) modelId
  | None => modelId
  end.

Definition getModelProvider (modelData : ModelRegistryData.t) (modelId : string) : string :=
  let model :=
    find (fun m => String.eqb (value (base m)) modelId) (getAllReasoningModels modelData) in
  match model with
  | None =>
      if Js.includes modelId "claude" then "anthropic"
      else if Js.includes modelId "gemini" && negb (Js.includes modelId "gemma") then "gemini"
      else if (Js.includes modelId "gpt-4" || Js.includes modelId "gpt-5")
              && negb (Js.includes modelId "gpt-oss")
      then "openai"
      else if Js.includes modelId "qwen/"
              || Js.includes modelId "openai/"
              || Js.includes modelId "llama-3.1-8b-instant"
              || Js.includes modelId "llama-3.3-"
              || Js.includes modelId "mixtral-"
              || Js.includes modelId "gemma2-"
      then "groq"
      else if Js.includes modelId "qwen"
              || Js.includes modelId "llama"
              || Js.includes modelId "mistral"
              || Js.includes modelId "gpt-oss-20b-mxfp4"
      then "local"
      else ""
  | Some m => Js.or (provider m) ""
  end.

(** ** ModelRegistry.ts: cloud models, transcription providers, provider configuration *)

Definition getCloudModel (modelData : ModelRegistryData.t) (modelId : string)
  : option CloudModelDefinition.t :=
  (fix scan (ps : list CloudProviderData.t) :=
     match ps with
     | [] => None
     | provider :: ps' =>
         match find (fun m => String.eqb (CloudModelDefinition.id m) modelId)
                 (CloudProviderData.models provider) with
         | Some model => Some model
         | None => scan ps'
         end
     end) (ModelRegistryData.cloudProviders modelData).

Module TranscriptionModelDefinition.
Record t := {
  id : string;
  name : string;
  description : string;
}.
End TranscriptionModelDefinition.

Module TranscriptionProviderData.
Record t := {
  id : string;
  name : string;
  baseUrl : string;
  models : list TranscriptionModelDefinition.t;
}.
End TranscriptionProviderData.

(** The functions on transcription providers read the field
    [transcriptionProviders] of the catalog, which [ModelRegistryData.t]
    above does not hold; they take it as [transcriptionProviders]. *)
Definition getTranscriptionProviders (transcriptionProviders : list TranscriptionProviderData.t)
  : list TranscriptionProviderData.t :=
  transcriptionProviders.

Definition getTranscriptionProvider (transcriptionProviders : list TranscriptionProviderData.t)
    (providerId : string) : option TranscriptionProviderData.t :=
  find (fun p => String.eqb (TranscriptionProviderData.id p) providerId)
    (getTranscriptionProviders transcriptionProviders).

(** [provider?.models || []]: an array is truthy, also when it is empty. *)
Definition getTranscriptionModels (transcriptionProviders : list TranscriptionProviderData.t)
    (providerId : string) : list TranscriptionModelDefinition.t :=
  let provider := getTranscriptionProvider transcriptionProviders providerId in
  match provider with
  | Some p => TranscriptionProviderData.models p
  | None => []
  end.

(** [models[0]?.id || "gpt-4o-mini-transcribe"] *)
Definition getDefaultTranscriptionModel (transcriptionProviders : list TranscriptionProviderData.t)
    (providerId : string) : string :=
  let models := getTranscriptionModels transcriptionProviders providerId in
  match models with
  | m :: _ => Js.or (TranscriptionModelDefinition.id m) "gpt-4o-mini-transcribe"
  | [] => "gpt-4o-mini-transcribe"
  end.

Record ProviderConfig := {
  pc_label : string;
  apiKeyStorageKey : option string;
  baseStorageKey : option string;
}.

(** The own properties of the object literal, in the order they are written. *)
Definition PROVIDER_CONFIG : JsObject.t ProviderConfig :=
  [ ("openai", {| pc_label := "OpenAI"; apiKeyStorageKey := Some "openaiApiKey";
                  baseStorageKey := None |});
    ("anthropic", {| pc_label := "Anthropic"; apiKeyStorageKey := Some "anthropicApiKey";
                     baseStorageKey := None |});
    ("gemini", {| pc_label := "Gemini"; apiKeyStorageKey := Some "geminiApiKey";
                  baseStorageKey := None |});
    ("groq", {| pc_label := "Groq"; apiKeyStorageKey := Some "groqApiKey";
                baseStorageKey := None |});
    ("custom", {| pc_label := "Custom endpoint"; apiKeyStorageKey := Some "openaiApiKey";
                  baseStorageKey := Some "cloudReasoningBaseUrl" |});
    ("local", {| pc_label := "Local"; apiKeyStorageKey := None; baseStorageKey := None |}) ].

(** ** useSettings.ts: the world the hook runs in *)

(** What a setter leaves behind outside the storage: calls over the Electron
    bridge and invalidations of the reasoning service's key cache. *)
Inductive Effect :=
| SaveOpenAIKey (key : string)
| SaveAnthropicKey (key : string)
| SaveGeminiKey (key : string)
| SaveGroqKey (key : string)
| ClearApiKeyCache (provider : string).

Record World := {
  localStorage : gmap string string;
  effects : list Effect;
}.

(** A state change, and the sequencing of two of them. *)
Definition Action := World → World.

Definition seq (a b : Action) : Action := fun w => b (a w).

Declare Scope action_scope.
Delimit Scope action_scope with action.
Bind Scope action_scope with Action.
Notation "a ;; b" := (seq a b) (at level 100, b at level 200, right associativity) : action_scope.

Definition skip : Action := fun w => w.

Definition emit (e : Effect) : Action :=
  fun w => {| localStorage := localStorage w; effects := effects w ++ [e] |}.

(** [if (field !== undefined) set(field)] *)
Definition if_defined {T} (field : option T) (set : T → Action) : Action :=
  match field with
  | Some v => set v
  | None => skip
  end.

(** [window.electronAPI]: which of the optional methods the preload script
    exposes; [None] when the page runs outside Electron. *)
Record ElectronAPI := {
  has_saveOpenAIKey : bool;
  has_saveAnthropicKey : bool;
  has_saveGeminiKey : bool;
  has_saveGroqKey : bool;
}.

(** [window.electronAPI?.method?.(key)] *)
Definition optional_call (electronAPI : option ElectronAPI)
    (has_method : ElectronAPI → bool) (e : Effect) : Action :=
  match electronAPI with
  | Some api => if has_method api then emit e else skip
  | None => skip
  end.

(** [API_ENDPOINTS] of [../config/constants], of which two fields are read. *)
Record ApiEndpoints := {
  TRANSCRIPTION_BASE : string;
  OPENAI_BASE : string;
}.

Record Options (T : Type) := {
  serialize : T → string;
  deserialize : string → T;
}.
Arguments serialize {T} _ _.
Arguments deserialize {T} _ _.

(** Modelled from the spec: the hook [useLocalStorage] of [./useLocalStorage],
    which is not among the sources.  A settings cell is one key of the
    string-valued storage; a read decodes the stored string and falls back
    to the default when the key is absent; the setter encodes the value and
    persists it at once. *)
Definition useLocalStorage {T} (key : string) (defaultValue : T) (options : Options T)
    (w : World) : T * (T → Action) :=
  (match localStorage w !! key with
   | Some stored => deserialize options stored
   | None => defaultValue
   end,
   fun v w' => {| localStorage := <[key := serialize options v]> (localStorage w');
                  effects := effects w' |}).

(** [String] as serializer or deserializer of a string-valued cell *)
Definition String_ (s : string) : string := s.

Record TranscriptionSettings := {
  ts_useLocalWhisper : option bool;
  ts_whisperModel : option string;
  ts_allowOpenAIFallback : option bool;
  ts_allowLocalFallback : option bool;
  ts_fallbackWhisperModel : option string;
  ts_preferredLanguage : option string;
  ts_cloudTranscriptionProvider : option string;
  ts_cloudTranscriptionModel : option string;
  ts_cloudTranscriptionBaseUrl : option string;
}.

Record ReasoningSettings := {
  rs_useReasoningModel : option bool;
  rs_reasoningModel : option string;
  rs_reasoningProvider : option string;
  rs_cloudReasoningBaseUrl : option string;
}.

Record ApiKeySettings := {
  ak_openaiApiKey : option string;
  ak_anthropicApiKey : option string;
  ak_geminiApiKey : option string;
  ak_groqApiKey : option string;
}.

(** The object returned by [useSettings()]. *)
Record Settings := {
  useLocalWhisper : bool;
  whisperModel : string;
  allowOpenAIFallback : bool;
  allowLocalFallback : bool;
  fallbackWhisperModel : string;
  preferredLanguage : string;
  cloudTranscriptionProvider : string;
  cloudTranscriptionModel : string;
  cloudTranscriptionBaseUrl : string;
  cloudReasoningBaseUrl : string;
  useReasoningModel : bool;
  reasoningModel : string;
  reasoningProvider : string;
  openaiApiKey : string;
  anthropicApiKey : string;
  geminiApiKey : string;
  groqApiKey : string;
  dictationKey : string;
  setUseLocalWhisper : bool → Action;
  setWhisperModel : string → Action;
  setAllowOpenAIFallback : bool → Action;
  setAllowLocalFallback : bool → Action;
  setFallbackWhisperModel : string → Action;
  setPreferredLanguage : string → Action;
  setCloudTranscriptionProvider : string → Action;
  setCloudTranscriptionModel : string → Action;
  setCloudTranscriptionBaseUrl : string → Action;
  setCloudReasoningBaseUrl : string → Action;
  setUseReasoningModel : bool → Action;
  setReasoningModel : string → Action;
  setOpenaiApiKey : string → Action;
  setAnthropicApiKey : string → Action;
  setGeminiApiKey : string → Action;
  setGroqApiKey : string → Action;
  setDictationKey : string → Action;
  activationMode : string;
  setActivationMode : string → Action;
  preferBuiltInMic : bool;
  selectedMicDeviceId : string;
  setPreferBuiltInMic : bool → Action;
  setSelectedMicDeviceId : string → Action;
  updateTranscriptionSettings : TranscriptionSettings → Action;
  updateReasoningSettings : ReasoningSettings → Action;
  updateApiKeys : ApiKeySettings → Action;
}.

(** ** useSettings.ts: the options of the cells *)

(** [{ serialize: String, deserialize: String }], the options of every
    string-valued cell *)
Definition string_options : Options string :=
  {| serialize := String_; deserialize := String_ |}.

Definition useLocalWhisper_options : Options bool :=
  {| serialize := Js.String_of_bool;
     deserialize := fun value => String.eqb value "true" |}.

Definition allowOpenAIFallback_options : Options bool :=
  {| serialize := Js.String_of_bool;
     deserialize := fun value => String.eqb value "true" |}.

Definition allowLocalFallback_options : Options bool :=
  {| serialize := Js.String_of_bool;
     deserialize := fun value => String.eqb value "true" |}.

Definition useReasoningModel_options : Options bool :=
  {| serialize := Js.String_of_bool;
     deserialize := fun value => negb (String.eqb value "false") |}.

Definition preferBuiltInMic_options : Options bool :=
  {| serialize := Js.String_of_bool;
     deserialize := fun value => negb (String.eqb value "false") |}.

(** The cell is typed ["tap" | "push"]; at run time both are strings. *)
Definition activationMode_options : Options string :=
  {| serialize := String_;
     deserialize := fun value => if String.eqb value "push" then "push" else "tap" |}.

(** ** useSettings.ts: the hook *)

Section UseSettings.

Variable modelData : ModelRegistryData.t.
Variable API_ENDPOINTS : ApiEndpoints.
(** [window.electronAPI] *)
Variable electronAPI : option ElectronAPI.

Open Scope action_scope.

Definition useSettings (w : World) : Settings :=
  let '(useLocalWhisper, setUseLocalWhisper) :=
    useLocalStorage "useLocalWhisper" false useLocalWhisper_options w in
  let '(whisperModel, setWhisperModel) :=
    useLocalStorage "whisperModel" "base" string_options w in
  let '(allowOpenAIFallback, setAllowOpenAIFallback) :=
    useLocalStorage "allowOpenAIFallback" false allowOpenAIFallback_options w in
  let '(allowLocalFallback, setAllowLocalFallback) :=
    useLocalStorage "allowLocalFallback" false allowLocalFallback_options w in
  let '(fallbackWhisperModel, setFallbackWhisperModel) :=
    useLocalStorage "fallbackWhisperModel" "base" string_options w in
  let '(preferredLanguage, setPreferredLanguage) :=
    useLocalStorage "preferredLanguage" "en" string_options w in
  let '(cloudTranscriptionProvider, setCloudTranscriptionProvider) :=
    useLocalStorage "cloudTranscriptionProvider" "openai" string_options w in
  let '(cloudTranscriptionModel, setCloudTranscriptionModel) :=
    useLocalStorage "cloudTranscriptionModel" "gpt-4o-mini-transcribe" string_options w in
  let '(cloudTranscriptionBaseUrl, setCloudTranscriptionBaseUrl) :=
    useLocalStorage "cloudTranscriptionBaseUrl" (TRANSCRIPTION_BASE API_ENDPOINTS)
      string_options w in
  let '(cloudReasoningBaseUrl, setCloudReasoningBaseUrl) :=
    useLocalStorage "cloudReasoningBaseUrl" (OPENAI_BASE API_ENDPOINTS) string_options w in
  let '(useReasoningModel, setUseReasoningModel) :=
    useLocalStorage "useReasoningModel" true useReasoningModel_options w in
  let '(reasoningModel, setReasoningModel) :=
    useLocalStorage "reasoningModel" "" string_options w in
  let '(openaiApiKey, setOpenaiApiKeyLocal) :=
    useLocalStorage "openaiApiKey" "" string_options w in
  let '(anthropicApiKey, setAnthropicApiKeyLocal) :=
    useLocalStorage "anthropicApiKey" "" string_options w in
  let '(geminiApiKey, setGeminiApiKeyLocal) :=
    useLocalStorage "geminiApiKey" "" string_options w in
  let '(groqApiKey, setGroqApiKeyLocal) :=
    useLocalStorage "groqApiKey" "" string_options w in
  let setOpenaiApiKey := fun key =>
    setOpenaiApiKeyLocal key ;;
    optional_call electronAPI has_saveOpenAIKey (SaveOpenAIKey key) ;;
    emit (ClearApiKeyCache "openai") in
  let setAnthropicApiKey := fun key =>
    setAnthropicApiKeyLocal key ;;
    optional_call electronAPI has_saveAnthropicKey (SaveAnthropicKey key) ;;
    emit (ClearApiKeyCache "anthropic") in
  let setGeminiApiKey := fun key =>
    setGeminiApiKeyLocal key ;;
    optional_call electronAPI has_saveGeminiKey (SaveGeminiKey key) ;;
    emit (ClearApiKeyCache "gemini") in
  let setGroqApiKey := fun key =>
    setGroqApiKeyLocal key ;;
    optional_call electronAPI has_saveGroqKey (SaveGroqKey key) ;;
    emit (ClearApiKeyCache "groq") in
  let '(dictationKey, setDictationKey) :=
    useLocalStorage "dictationKey" "" string_options w in
  let '(activationMode, setActivationMode) :=
    useLocalStorage "activationMode" "tap" activationMode_options w in
  let '(preferBuiltInMic, setPreferBuiltInMic) :=
    useLocalStorage "preferBuiltInMic" true preferBuiltInMic_options w in
  let '(selectedMicDeviceId, setSelectedMicDeviceId) :=
    useLocalStorage "selectedMicDeviceId" "" string_options w in
  let reasoningProvider := getModelProvider modelData reasoningModel in
  let updateTranscriptionSettings := fun settings : TranscriptionSettings =>
    if_defined (ts_useLocalWhisper settings) setUseLocalWhisper ;;
    if_defined (ts_whisperModel settings) setWhisperModel ;;
    if_defined (ts_allowOpenAIFallback settings) setAllowOpenAIFallback ;;
    if_defined (ts_allowLocalFallback settings) setAllowLocalFallback ;;
    if_defined (ts_fallbackWhisperModel settings) setFallbackWhisperModel ;;
    if_defined (ts_preferredLanguage settings) setPreferredLanguage ;;
    if_defined (ts_cloudTranscriptionProvider settings) setCloudTranscriptionProvider ;;
    if_defined (ts_cloudTranscriptionModel settings) setCloudTranscriptionModel ;;
    if_defined (ts_cloudTranscriptionBaseUrl settings) setCloudTranscriptionBaseUrl in
  let updateReasoningSettings := fun settings : ReasoningSettings =>
    if_defined (rs_useReasoningModel settings) setUseReasoningModel ;;
    if_defined (rs_reasoningModel settings) setReasoningModel ;;
    if_defined (rs_cloudReasoningBaseUrl settings) setCloudReasoningBaseUrl in
  let updateApiKeys := fun keys : ApiKeySettings =>
    if_defined (ak_openaiApiKey keys) setOpenaiApiKey ;;
    if_defined (ak_anthropicApiKey keys) setAnthropicApiKey ;;
    if_defined (ak_geminiApiKey keys) setGeminiApiKey ;;
    if_defined (ak_groqApiKey keys) setGroqApiKey in
  {| useLocalWhisper := useLocalWhisper;
     whisperModel := whisperModel;
     allowOpenAIFallback := allowOpenAIFallback;
     allowLocalFallback := allowLocalFallback;
     fallbackWhisperModel := fallbackWhisperModel;
     preferredLanguage := preferredLanguage;
     cloudTranscriptionProvider := cloudTranscriptionProvider;
     cloudTranscriptionModel := cloudTranscriptionModel;
     cloudTranscriptionBaseUrl := cloudTranscriptionBaseUrl;
     cloudReasoningBaseUrl := cloudReasoningBaseUrl;
     useReasoningModel := useReasoningModel;
     reasoningModel := reasoningModel;
     reasoningProvider := reasoningProvider;
     openaiApiKey := openaiApiKey;
     anthropicApiKey := anthropicApiKey;
     geminiApiKey := geminiApiKey;
     groqApiKey := groqApiKey;
     dictationKey := dictationKey;
     setUseLocalWhisper := setUseLocalWhisper;
     setWhisperModel := setWhisperModel;
     setAllowOpenAIFallback := setAllowOpenAIFallback;
     setAllowLocalFallback := setAllowLocalFallback;
     setFallbackWhisperModel := setFallbackWhisperModel;
     setPreferredLanguage := setPreferredLanguage;
     setCloudTranscriptionProvider := setCloudTranscriptionProvider;
     setCloudTranscriptionModel := setCloudTranscriptionModel;
     setCloudTranscriptionBaseUrl := setCloudTranscriptionBaseUrl;
     setCloudReasoningBaseUrl := setCloudReasoningBaseUrl;
     setUseReasoningModel := setUseReasoningModel;
     setReasoningModel := setReasoningModel;
     setOpenaiApiKey := setOpenaiApiKey;
     setAnthropicApiKey := setAnthropicApiKey;
     setGeminiApiKey := setGeminiApiKey;
     setGroqApiKey := setGroqApiKey;
     setDictationKey := setDictationKey;
     activationMode := activationMode;
     setActivationMode := setActivationMode;
     preferBuiltInMic := preferBuiltInMic;
     selectedMicDeviceId := selectedMicDeviceId;
     setPreferBuiltInMic := setPreferBuiltInMic;
     setSelectedMicDeviceId := setSelectedMicDeviceId;
     updateTranscriptionSettings := updateTranscriptionSettings;
     updateReasoningSettings := updateReasoningSettings;
     updateApiKeys := updateApiKeys |}.

End UseSettings.

(** ** PromptStudio.tsx: the settings the test playground reads *)

(** [testPrompt] and [renderTestPlayground] both start by reading three
    values straight from the storage. *)
Record PlaygroundSettings := {
  pg_useReasoningModel : bool;
  pg_reasoningModel : string;
  pg_reasoningProvider : string;
}.

(** [localStorage.getItem(key)] is [null] when the key is absent; [null] is
    different from every string and is falsy. *)
Definition playgroundSettings (modelData : ModelRegistryData.t) (w : World)
  : PlaygroundSettings :=
  let useReasoningModel :=
    match localStorage w !! "useReasoningModel" with
    | Some stored => String.eqb stored "true"
    | None => false
    end in
  let reasoningModel :=
    match localStorage w !! "reasoningModel" with
    | Some stored => Js.or stored ""
    | None => ""
    end in
  let reasoningProvider :=
    if String.eqb reasoningModel "" then "openai"
    else getModelProvider modelData reasoningModel in
  {| pg_useReasoningModel := useReasoningModel;
     pg_reasoningModel := reasoningModel;
     pg_reasoningProvider := reasoningProvider |}.

(** ** Reference definitions, written after the specification *)

(** Literal substitution of the first occurrence of [marker] in [s] by
    [value]; the rest of [s] is left as it is. *)
Fixpoint substitute_first (marker value s : string) : string :=
  if String.prefix marker s then value +:+ Js.drop (Js.len marker) s
  else match s with
       | "" => ""
       | String c s' => String c (substitute_first marker value s')
       end.

(** One row of the resolver's heuristic table: the identifier contains one
    of [any_of] and none of [none_of]. *)
Record HeuristicRule := {
  any_of : list string;
  none_of : list string;
  resolves_to : string;
}.

Definition heuristic_table : list HeuristicRule :=
  [ {| any_of := ["claude"]; none_of := []; resolves_to := "anthropic" |};
    {| any_of := ["gemini"]; none_of := ["gemma"]; resolves_to := "gemini" |};
    {| any_of := ["gpt-4"; "gpt-5"]; none_of := ["gpt-oss"]; resolves_to := "openai" |};
    {| any_of := ["qwen/"; "openai/"; "llama-3.1-8b-instant"; "llama-3.3-";
                  "mixtral-"; "gemma2-"];
       none_of := []; resolves_to := "groq" |};
    {| any_of := ["qwen"; "llama"; "mistral"; "gpt-oss-20b-mxfp4"];
       none_of := []; resolves_to := "local" |} ].

Definition rule_applies (modelId : string) (r : HeuristicRule) : bool :=
  existsb (Js.includes modelId) (any_of r)
  && forallb (fun pat => negb (Js.includes modelId pat)) (none_of r).

(** First matching row wins; the empty string when no row matches. *)
Fixpoint resolve_by_table (table : list HeuristicRule) (modelId : string) : string :=
  match table with
  | [] => ""
  | r :: table' =>
      if rule_applies modelId r then resolves_to r else resolve_by_table table' modelId
  end.

(** ** Notions used in the statements *)

(** The models of one provider, each with the provider's id. *)
Definition tagged_models (p : ModelProvider.t) : list ModelWithProviderId :=
  map (fun m => {| model := m; providerId := ModelProvider.id p |}) (ModelProvider.models p).

(** Registering the providers [ps] one after the other. *)
Definition registerAll (ps : list ModelProvider.t) (reg : ModelRegistry.t) : ModelRegistry.t :=
  fold_left (fun this p => ModelRegistry.registerProvider p this) ps reg.

(** The entry of the view made from one cloud provider ... *)
Definition cloud_view (cloudProvider : CloudProviderData.t) : ReasoningProvider :=
  {| rp_name := CloudProviderData.name cloudProvider;
     rp_models :=
       map (fun m => {| value := CloudModelDefinition.id m;
                        label := CloudModelDefinition.name m;
                        rm_description := CloudModelDefinition.description m |})
         (CloudProviderData.models cloudProvider) |}.

(** ... and the one bucket that collects the models of all local providers. *)
Definition local_view (modelData : ModelRegistryData.t) : ReasoningProvider :=
  {| rp_name := "Local AI";
     rp_models :=
       map (fun m => {| value := ModelDefinition.id (model m);
                        label := ModelDefinition.name (model m);
                        rm_description :=
                          ModelDefinition.description (model m) +:+ " ("
                            +:+ ModelDefinition.size (model m) +:+ ")" |})
         (ModelRegistry.getAllModels (modelRegistry modelData)) |}.

(** The two conventions of the boolean cells, and the round trip. *)
Definition true_only (o : Options bool) : Prop :=
  ∀ stored, deserialize o stored = true ↔ stored = "true".

Definition true_unless_false (o : Options bool) : Prop :=
  ∀ stored, deserialize o stored = true ↔ stored ≠ "false".

Definition round_trip {T} (o : Options T) (v : T) : Prop :=
  deserialize o (serialize o v) = v.

(** A [Partial<ReasoningSettings>] with its [reasoningProvider] field set
    to [x]. *)
Definition with_reasoningProvider (settings : ReasoningSettings) (x : option string)
  : ReasoningSettings :=
  {| rs_useReasoningModel := rs_useReasoningModel settings;
     rs_reasoningModel := rs_reasoningModel settings;
     rs_reasoningProvider := x;
     rs_cloudReasoningBaseUrl := rs_cloudReasoningBaseUrl settings |}.

(** The field of a [Partial<ApiKeySettings>] that is written to the
    storage key [k], if [k] is the key of an API-key cell. *)
Definition api_key_field (keys : ApiKeySettings) (k : string) : option string :=
  if String.eqb k "groqApiKey" then ak_groqApiKey keys
  else if String.eqb k "geminiApiKey" then ak_geminiApiKey keys
  else if String.eqb k "anthropicApiKey" then ak_anthropicApiKey keys
  else if String.eqb k "openaiApiKey" then ak_openaiApiKey keys
  else None.

(** The effects of [window.electronAPI?.method?.(key)]. *)
Definition bridge_effects (electronAPI : option ElectronAPI)
    (has_method : ElectronAPI → bool) (e : Effect) : list Effect :=
  match electronAPI with
  | Some api => if has_method api then [e] else []
  | None => []
  end.

Definition only_groq (x : string) : ApiKeySettings :=
  {| ak_openaiApiKey := None; ak_anthropicApiKey := None;
     ak_geminiApiKey := None; ak_groqApiKey := Some x |}.

(** ** A small catalog to evaluate on *)

Definition sample_model (id fileName hfRepo : string) : ModelDefinition.t :=
  {| ModelDefinition.id := id;
     ModelDefinition.name := id;
     ModelDefinition.size := "4.7GB";
     ModelDefinition.sizeBytes := 4700000000;
     ModelDefinition.description := "Sample model";
     ModelDefinition.fileName := fileName;
     ModelDefinition.quantization := "q4_k_m";
     ModelDefinition.contextLength := 32768;
     ModelDefinition.hfRepo := hfRepo;
     ModelDefinition.recommended := None |}.

Definition sample_qwen : LocalProviderData.t :=
  {| LocalProviderData.id := "qwen";
     LocalProviderData.name := "Qwen";
     LocalProviderData.baseUrl := "https://huggingface.co";
     LocalProviderData.promptTemplate := "<s>{system}</s><u>{user}</u>";
     LocalProviderData.models :=
       [ sample_model "qwen2.5-7b-instruct-q4_k_m" "qwen2.5-7b-instruct-q4_k_m.gguf"
           "Qwen/Qwen2.5-7B-Instruct-GGUF";
         sample_model "claude-distill-qwen-7b" "claude-distill-qwen-7b.gguf"
           "Qwen/Distill-GGUF" ] |}.

Definition sample_llama : LocalProviderData.t :=
  {| LocalProviderData.id := "llama";
     LocalProviderData.name := "Llama";
     LocalProviderData.baseUrl := "https://huggingface.co";
     LocalProviderData.promptTemplate := "[SYS]{system}[/SYS] {user}";
     LocalProviderData.models :=
       [ sample_model "llama-3.2-3b-instruct-q4_k_m" "Llama-3.2-3B-Instruct-Q4_K_M.gguf"
           "bartowski/Llama-3.2-3B-Instruct-GGUF" ] |}.

(** A second entry under the id of [sample_qwen], with another model. *)
Definition sample_qwen_again : LocalProviderData.t :=
  {| LocalProviderData.id := "qwen";
     LocalProviderData.name := "Qwen (mirror)";
     LocalProviderData.baseUrl := "https://mirror.example";
     LocalProviderData.promptTemplate := "{system} {user}";
     LocalProviderData.models :=
       [ sample_model "qwen3-8b-q4_k_m" "Qwen3-8B-Q4_K_M.gguf" "Qwen/Qwen3-8B-GGUF" ] |}.

Definition sample_openai : CloudProviderData.t :=
  {| CloudProviderData.id := "openai";
     CloudProviderData.name := "OpenAI";
     CloudProviderData.models :=
       [ {| CloudModelDefinition.id := "gpt-5";
            CloudModelDefinition.name := "GPT-5";
            CloudModelDefinition.description := "Flagship";
            CloudModelDefinition.disableThinking := None |} ] |}.

Definition sample_catalog : ModelRegistryData.t :=
  {| ModelRegistryData.cloudProviders := [sample_openai];
     ModelRegistryData.localProviders := [sample_qwen; sample_llama] |}.

(** Three registrations, the last under the id of the first. *)
Definition overwriting_registrations : list ModelProvider.t :=
  map ModelRegistry.providerFromData [sample_qwen_again; sample_llama; sample_qwen].

(** A local model whose id looks like an Anthropic one to the heuristics. *)
Definition sample_lookalike : ModelWithProviderId :=
  {| model := sample_model "claude-distill-qwen-7b" "claude-distill-qwen-7b.gguf"
                "Qwen/Distill-GGUF";
     providerId := "qwen" |}.

(** ** Further notions and data for the statements *)

(** The keys of the provider map are pairwise distinct, and every provider
    is filed under its own id. *)
Definition well_keyed (reg : ModelRegistry.t) : Prop :=
  NoDup (map fst (ModelRegistry.providers reg))
  ∧ ∀ k p, (k, p) ∈ ModelRegistry.providers reg → k = ModelProvider.id p.

(** The pair returned by [getModel], as an element of [getAllModels]. *)
Definition tag_found (found : ModelDefinition.t * ModelProvider.t) : ModelWithProviderId :=
  {| model := fst found; providerId := ModelProvider.id (snd found) |}.

(** The string that [updateTranscriptionSettings] stores under the key [k],
    if [k] is the key of a field that is present. *)
Definition transcription_field (settings : TranscriptionSettings) (k : string)
  : option string :=
  if String.eqb k "cloudTranscriptionBaseUrl" then ts_cloudTranscriptionBaseUrl settings
  else if String.eqb k "cloudTranscriptionModel" then ts_cloudTranscriptionModel settings
  else if String.eqb k "cloudTranscriptionProvider" then ts_cloudTranscriptionProvider settings
  else if String.eqb k "preferredLanguage" then ts_preferredLanguage settings
  else if String.eqb k "fallbackWhisperModel" then ts_fallbackWhisperModel settings
  else if String.eqb k "allowLocalFallback"
       then Js.String_of_bool <$> ts_allowLocalFallback settings
  else if String.eqb k "allowOpenAIFallback"
       then Js.String_of_bool <$> ts_allowOpenAIFallback settings
  else if String.eqb k "whisperModel" then ts_whisperModel settings
  else if String.eqb k "useLocalWhisper" then Js.String_of_bool <$> ts_useLocalWhisper settings
  else None.

(** The same for [updateReasoningSettings]. *)
Definition reasoning_field (settings : ReasoningSettings) (k : string) : option string :=
  if String.eqb k "cloudReasoningBaseUrl" then rs_cloudReasoningBaseUrl settings
  else if String.eqb k "reasoningModel" then rs_reasoningModel settings
  else if String.eqb k "useReasoningModel"
       then Js.String_of_bool <$> rs_useReasoningModel settings
  else None.

(** What the wrapped setter of one API key adds to the effects when its
    field holds [field]. *)
Definition api_key_effects (electronAPI : option ElectronAPI)
    (has_method : ElectronAPI → bool) (save : string → Effect) (provider : string)
    (field : option string) : list Effect :=
  match field with
  | Some key => bridge_effects electronAPI has_method (save key) ++ [ClearApiKeyCache provider]
  | None => []
  end.

(** Two transcription providers, the second without models. *)
Definition sample_transcription : list TranscriptionProviderData.t :=
  [ {| TranscriptionProviderData.id := "openai";
       TranscriptionProviderData.name := "OpenAI";
       TranscriptionProviderData.baseUrl := "https://api.openai.com/v1";
       TranscriptionProviderData.models :=
         [ {| TranscriptionModelDefinition.id := "gpt-4o-transcribe";
              TranscriptionModelDefinition.name := "GPT-4o Transcribe";
              TranscriptionModelDefinition.description := "Accurate" |};
           {| TranscriptionModelDefinition.id := "whisper-1";
              TranscriptionModelDefinition.name := "Whisper";
              TranscriptionModelDefinition.description := "Classic" |} ] |};
    {| TranscriptionProviderData.id := "custom";
       TranscriptionProviderData.name := "Custom";
       TranscriptionProviderData.baseUrl := "";
       TranscriptionProviderData.models := [] |} ].

(** * Properties *)

(** ** The primitives on small inputs *)

Example replace_first_only : Js.replace "a-b-a" "a" "x" = "x-b-a".
Proof. reflexivity. Qed.

Example replace_absent : Js.replace "abc" "z" "x" = "abc".
Proof. reflexivity. Qed.

Example replace_empty_pattern : Js.replace "abc" "" "x" = "xabc".
Proof. reflexivity. Qed.

Example replace_matched : Js.replace "abc" "b" "[$&]" = "a[b]c".
Proof. reflexivity. Qed.

Example replace_preceding : Js.replace "abc" "b" "$`" = "aac".
Proof. reflexivity. Qed.

Example replace_following : Js.replace "abc" "b" "$'" = "acc".
Proof. reflexivity. Qed.

Example replace_no_capture : Js.replace "abc" "b" "$1$<n>$" = "a$1$<n>$c".
Proof. reflexivity. Qed.

Example entries_order :
  map fst (JsObject.entries
             (JsObject.assign "local" 6
                (JsObject.assign "b" 5
                   (JsObject.assign "10" 4
                      (JsObject.assign "__proto__" 3
                         (JsObject.assign "2" 2
                            (JsObject.assign "01" 1
                               (JsObject.assign "b" 0 JsObject.empty))))))))
  = ["2"; "10"; "b"; "01"; "local"].
Proof. reflexivity. Qed.

Example map_set_keeps_position :
  JsMap.set "a" 3 (JsMap.set "b" 2 (JsMap.set "a" 1 JsMap.empty)) = [("a", 3); ("b", 2)].
Proof. reflexivity. Qed.

Example getModelProvider_catalog_hit : getModelProvider sample_catalog "gpt-5" = "openai".
Proof. reflexivity. Qed.

Example getModelProvider_samples :
  map (getModelProvider sample_catalog)
    ["claude-3-opus"; "gemini-2.5-pro"; "gemma-gemini"; "gpt-4o"; "gpt-oss-120b";
     "openai/gpt-oss-120b"; "gemma2-9b-it"; "llama-3.3-70b-versatile"; "llama-local-gguf";
     "gpt-oss-20b-mxfp4"; "totally-unknown-model-xyz"; ""]
  = ["anthropic"; "gemini"; ""; "openai"; ""; "groq"; "groq"; "groq"; "local"; "local"; ""; ""].
Proof. reflexivity. Qed.

(** ** Strings *)

Lemma append_nil_l (s : string) : "" +:+ s = s.
Proof. reflexivity. Qed.

Lemma append_cons (c : ascii) (s t : string) : String c s +:+ t = String c (s +:+ t).
Proof. reflexivity. Qed.

Lemma append_assoc (a b c : string) : (a +:+ b) +:+ c = a +:+ b +:+ c.
Proof.
  induction a as [|x a IH]; [done |].
  rewrite !append_cons. by f_equal.
Qed.

Lemma prefix_nil (s : string) : String.prefix "" s = true.
Proof. by destruct s. Qed.

Lemma prefix_cons (a b : ascii) (p s : string) :
  String.prefix (String a p) (String b s)
  = if ascii_dec a b then String.prefix p s else false.
Proof. reflexivity. Qed.

Lemma prefix_append (p t : string) : String.prefix p (p +:+ t) = true.
Proof.
  induction p as [|c p IH]; [apply prefix_nil |].
  rewrite append_cons, prefix_cons.
  destruct (ascii_dec c c); [exact IH | congruence].
Qed.

Lemma drop_len_append (p t : string) : Js.drop (Js.len p) (p +:+ t) = t.
Proof.
  induction p as [|c p IH]; [by destruct t |].
  rewrite append_cons. exact IH.
Qed.

Lemma prefix_split (p s : string) :
  String.prefix p s = true → s = p +:+ Js.drop (Js.len p) s.
Proof.
  revert s. induction p as [|c p IH]; intros s H.
  - by destruct s.
  - destruct s as [|d s]; [discriminate |].
    rewrite prefix_cons in H.
    destruct (ascii_dec c d) as [->|]; [| discriminate].
    rewrite append_cons. cbn [Js.len String.length Js.drop]. f_equal. by apply IH.
Qed.

Lemma includes_cons_false (c : ascii) (s pat : string) :
  Js.includes (String c s) pat = false →
  String.prefix pat (String c s) = false ∧ Js.includes s pat = false.
Proof.
  unfold Js.includes. cbn [Js.indexOf].
  destruct (String.prefix pat (String c s)); [discriminate |].
  by destruct (Js.indexOf s pat).
Qed.

Lemma prefix_dollar (c : ascii) (s : string) :
  String.prefix "$" (String c s) = Ascii.eqb "$" c.
Proof.
  change "$" with (String "$" "") at 1. rewrite prefix_cons, prefix_nil.
  destruct (ascii_dec "$" c) as [<-|Hne].
  - symmetry. apply Ascii.eqb_refl.
  - symmetry. by apply Ascii.eqb_neq.
Qed.

(** A template free of dollar signs is its own expansion. *)
Lemma GetSubstitution_literal (matched preceding following template : string) :
  Js.includes template "$" = false →
  Js.GetSubstitution matched preceding following template = template.
Proof.
  induction template as [|c rest IH]; intros H; [done |].
  apply includes_cons_false in H as [Hc Hrest].
  rewrite prefix_dollar in Hc.
  cbn [Js.GetSubstitution].
  rewrite Ascii.eqb_sym, Hc. by rewrite IH.
Qed.

(** With a replacement free of dollar signs, [replace] is the literal
    substitution of the first occurrence. *)
Lemma replace_substitute_first (s pat replaceValue : string) :
  Js.includes replaceValue "$" = false →
  Js.replace s pat replaceValue = substitute_first pat replaceValue s.
Proof.
  intros Hfree. unfold Js.replace.
  induction s as [|c s IH]; cbn [Js.indexOf substitute_first].
  - destruct (String.prefix pat "") eqn:Hp; [| done].
    cbn [Js.take Js.drop Nat.add]. by rewrite GetSubstitution_literal, append_nil_l.
  - destruct (String.prefix pat (String c s)) eqn:Hp.
    + cbn [Js.take Js.drop Nat.add]. by rewrite GetSubstitution_literal, append_nil_l.
    + destruct (Js.indexOf s pat) as [i|]; cbn [fmap option_fmap option_map];
        [| by rewrite <- IH].
      cbn [Js.take Js.drop Nat.add]. rewrite append_cons, <- IH.
      by rewrite !GetSubstitution_literal.
Qed.

(** [substitute_first] does nothing when the marker is absent ... *)
Lemma substitute_first_absent (marker value s : string) :
  Js.includes s marker = false → substitute_first marker value s = s.
Proof.
  induction s as [|c s IH]; intros H.
  - unfold Js.includes in H. cbn [Js.indexOf] in H. cbn [substitute_first].
    by destruct (String.prefix marker "").
  - apply includes_cons_false in H as [Hp Hs].
    cbn [substitute_first]. rewrite Hp. by rewrite IH.
Qed.

(** ... and otherwise rewrites the occurrence that no other one precedes,
    whatever follows it. *)
Lemma substitute_first_occurrence (marker value before after : string) :
  (∀ i, i < Js.len before →
        String.prefix marker (Js.drop i (before +:+ marker +:+ after)) = false) →
  substitute_first marker value (before +:+ marker +:+ after) = before +:+ value +:+ after.
Proof.
  induction before as [|c before IH]; intros Hfirst.
  - rewrite !append_nil_l.
    pose proof (prefix_append marker after) as Hp.
    pose proof (drop_len_append marker after) as Hd.
    destruct (marker +:+ after); cbn [substitute_first]; by rewrite Hp, Hd.
  - rewrite !append_cons. cbn [substitute_first].
    pose proof (Hfirst 0 ltac:(simpl; lia)) as H0.
    rewrite append_cons in H0. cbn [Js.drop] in H0. rewrite H0. f_equal.
    apply IH. intros i Hi. specialize (Hfirst (S i) ltac:(simpl; lia)).
    by rewrite append_cons in Hfirst.
Qed.

(** Lengths of strings built from constructors. *)
Ltac solve_len := unfold Js.len in *; cbn [String.length] in *; lia.

Lemma prefix_len (p s : string) : String.prefix p s = true → Js.len p ≤ Js.len s.
Proof.
  revert s. induction p as [|c p IH]; intros s H; [solve_len |].
  destruct s as [|d s]; [discriminate |].
  rewrite prefix_cons in H. destruct (ascii_dec c d); [| discriminate].
  specialize (IH s H). solve_len.
Qed.

Lemma includes_len (s pat : string) : Js.includes s pat = true → Js.len pat ≤ Js.len s.
Proof.
  unfold Js.includes. induction s as [|c s IH]; cbn [Js.indexOf].
  - destruct (String.prefix pat "") eqn:Hp; [| discriminate].
    intros _. by apply prefix_len.
  - destruct (String.prefix pat (String c s)) eqn:Hp.
    + intros _. by apply prefix_len.
    + destruct (Js.indexOf s pat); [| discriminate].
      intros _. specialize (IH eq_refl). solve_len.
Qed.

Lemma prefix_app_iff (p a b : string) :
  Js.len p ≤ Js.len a → String.prefix p (a +:+ b) = String.prefix p a.
Proof.
  revert a. induction p as [|c p IH]; intros a Hlen; [by rewrite !prefix_nil |].
  destruct a as [|d a]; [solve_len |].
  rewrite append_cons, !prefix_cons.
  destruct (ascii_dec c d); [| done]. apply IH. solve_len.
Qed.

Lemma drop_app (n : nat) (a b : string) :
  n ≤ Js.len a → Js.drop n (a +:+ b) = Js.drop n a +:+ b.
Proof.
  revert a. induction n as [|n IH]; intros a Hlen; [by destruct a |].
  destruct a as [|d a]; [solve_len |].
  rewrite append_cons. cbn [Js.drop]. apply IH. solve_len.
Qed.

(** What follows a string that contains the marker is out of reach of the
    substitution. *)
Lemma substitute_first_app (marker value a b : string) :
  Js.includes a marker = true →
  substitute_first marker value (a +:+ b) = substitute_first marker value a +:+ b.
Proof.
  intros Hin. pose proof (includes_len _ _ Hin) as Hlen.
  induction a as [|c a IH].
  - destruct marker; [| solve_len].
    rewrite append_nil_l. cbn [substitute_first]. rewrite !prefix_nil.
    cbn [Js.len String.length Js.drop]. rewrite append_assoc.
    by destruct b.
  - rewrite append_cons. cbn [substitute_first]. rewrite <- append_cons.
    rewrite prefix_app_iff by done.
    destruct (String.prefix marker (String c a)) eqn:Hp.
    + by rewrite drop_app, append_assoc.
    + rewrite append_cons. f_equal.
      unfold Js.includes in Hin. cbn [Js.indexOf] in Hin. rewrite Hp in Hin.
      assert (Js.includes a marker = true) as Hin'.
      { unfold Js.includes. by destruct (Js.indexOf a marker). }
      apply IH; [done | by apply includes_len].
Qed.

(** ** The prompt formatter *)

(** When neither value contains a dollar sign, [formatPrompt] substitutes
    the first ["{system}"] by the system prompt and then the first
    ["{user}"] by the text, both literally. *)
Theorem formatPrompt_literal (template text systemPrompt : string) :
  Js.includes systemPrompt "$" = false →
  Js.includes text "$" = false →
  createPromptFormatter template text systemPrompt
  = substitute_first "{user}" text (substitute_first "{system}" systemPrompt template).
Proof.
  intros Hs Ht. unfold createPromptFormatter.
  by rewrite !replace_substitute_first.
Qed.

Lemma formatPrompt_literal_witness :
  Js.includes "be terse" "$" = false
  ∧ Js.includes "hello" "$" = false
  ∧ createPromptFormatter "SYS:{system} USR:{user}" "hello" "be terse"
    = substitute_first "{user}" "hello"
        (substitute_first "{system}" "be terse" "SYS:{system} USR:{user}").
Proof.
  split; [reflexivity |]. split; [reflexivity |].
  apply (formatPrompt_literal "SYS:{system} USR:{user}" "hello" "be terse"); reflexivity.
Defined.

Example formatPrompt_spec_example :
  createPromptFormatter "SYS:{system} USR:{user}" "hello" "be terse"
  = "SYS:be terse USR:hello".
Proof. reflexivity. Qed.

Example formatPrompt_repeated_markers :
  createPromptFormatter "{user}/{system}/{user}/{system}" "u" "s" = "u/s/{user}/{system}".
Proof. reflexivity. Qed.

(** A system prompt that contains ["{user}"] captures the user text: with
    values free of dollar signs, on every template that starts with
    ["{system}"] and ends with ["{user}"], the text lands in the system
    prompt and the template's own ["{user}"] is left in the output. *)
Theorem formatPrompt_marker_capture (middle text systemPrompt : string) :
  Js.includes systemPrompt "$" = false →
  Js.includes text "$" = false →
  Js.includes systemPrompt "{user}" = true →
  createPromptFormatter ("{system}" +:+ middle +:+ "{user}") text systemPrompt
  = substitute_first "{user}" text systemPrompt +:+ middle +:+ "{user}".
Proof.
  intros Hs Ht Hin. unfold createPromptFormatter.
  rewrite !replace_substitute_first by done.
  rewrite <- (append_nil_l ("{system}" +:+ middle +:+ "{user}")).
  rewrite substitute_first_occurrence by solve_len.
  rewrite append_nil_l. by apply substitute_first_app.
Qed.

Lemma formatPrompt_marker_capture_witness :
  Js.includes "Echo {user}" "$" = false
  ∧ Js.includes "hi" "$" = false
  ∧ Js.includes "Echo {user}" "{user}" = true
  ∧ createPromptFormatter ("{system}" +:+ " | " +:+ "{user}") "hi" "Echo {user}"
    = substitute_first "{user}" "hi" "Echo {user}" +:+ " | " +:+ "{user}".
Proof.
  split; [reflexivity |]. split; [reflexivity |]. split; [reflexivity |].
  apply (formatPrompt_marker_capture " | " "hi" "Echo {user}"); reflexivity.
Defined.

(** C3: the formatter replaces the first ["{system}"] and the first
    ["{user}"], but what it inserts is the expansion of the value as a
    replacement template.  On the text ["pay $$5"] the pair of dollar signs
    is inserted as a single one, so the prompt differs from the literal
    substitution of the text. *)
Theorem formatPrompt_expands_dollar_patterns :
  createPromptFormatter "SYS:{system} USR:{user}" "pay $$5" "be terse"
  = "SYS:be terse USR:pay $5"
  ∧ substitute_first "{user}" "pay $$5"
      (substitute_first "{system}" "be terse" "SYS:{system} USR:{user}")
    = "SYS:be terse USR:pay $$5"
  ∧ createPromptFormatter "SYS:{system} USR:{user}" "pay $$5" "be terse"
    ≠ substitute_first "{user}" "pay $$5"
        (substitute_first "{system}" "be terse" "SYS:{system} USR:{user}").
Proof. split; [reflexivity |]. split; [reflexivity | discriminate]. Qed.

Lemma append_nil_r (s : string) : s +:+ "" = s.
Proof.
  induction s as [|c s IH]; [done |]. rewrite append_cons. by f_equal.
Qed.

(** C9: the system marker is substituted first, so a system prompt that
    contains ["{user}"] receives the user text, and the ["{user}"] of the
    template itself stays in the output: on the template
    ["{system} | {user}"] with the system prompt ["Echo {user}"], every
    text is inserted after ["Echo "], as its expansion in general and as
    it stands when it has no dollar sign, and the output ends with the
    template's [" | {user}"]. *)
Theorem formatPrompt_user_marker_in_system_prompt :
  ∃ middle systemPrompt : string,
    Js.includes systemPrompt "{user}" = true
    ∧ ∀ text : string,
        createPromptFormatter ("{system}" +:+ middle +:+ "{user}") text systemPrompt
        = "Echo " +:+ Js.GetSubstitution "{user}" "Echo " (middle +:+ "{user}") text
            +:+ middle +:+ "{user}"
        ∧ (Js.includes text "$" = false →
           createPromptFormatter ("{system}" +:+ middle +:+ "{user}") text systemPrompt
           = substitute_first "{user}" text systemPrompt +:+ middle +:+ "{user}"
           ∧ createPromptFormatter ("{system}" +:+ middle +:+ "{user}") text systemPrompt
             = "Echo " +:+ text +:+ " | {user}").
Proof.
  exists " | ", "Echo {user}". split; [reflexivity |].
  intros text.
  assert (createPromptFormatter ("{system}" +:+ " | " +:+ "{user}") text "Echo {user}"
          = "Echo " +:+ Js.GetSubstitution "{user}" "Echo " (" | " +:+ "{user}") text
              +:+ " | " +:+ "{user}") as Hrun by reflexivity.
  split; [exact Hrun |].
  intros Hfree. rewrite Hrun, GetSubstitution_literal by done.
  split; [| reflexivity].
  assert (substitute_first "{user}" text "Echo {user}" = "Echo " +:+ text) as ->.
  { cbv [substitute_first String.prefix Js.len String.length Js.drop].
    repeat (destruct (ascii_dec _ _); [try discriminate | try congruence]).
    simpl. by rewrite append_nil_r. }
  by rewrite append_assoc.
Qed.

(** ** The insertion-ordered map *)

Lemma JsMap_set_fresh {V} (k : string) (v : V) (m : JsMap.t V) :
  JsMap.get k m = None → JsMap.set k v m = m ++ [(k, v)].
Proof.
  induction m as [|[k' v'] m IH]; intros H; [done |].
  simpl in *. destruct (String.eqb k' k); [discriminate |].
  by rewrite IH.
Qed.

Lemma JsMap_get_snoc {V} (k k' : string) (v : V) (m : JsMap.t V) :
  JsMap.get k m = None → k' ≠ k → JsMap.get k (m ++ [(k', v)]) = None.
Proof.
  intros Hm Hne. induction m as [|[k0 v0] m IH]; simpl in *.
  - by apply String.eqb_neq in Hne as ->.
  - destruct (String.eqb k0 k); [discriminate | by apply IH].
Qed.

Lemma JsMap_elem_of_set {V} (k : string) (v : V) (m : JsMap.t V) (e : string * V) :
  e ∈ JsMap.set k v m → e = (k, v) ∨ e ∈ m.
Proof.
  induction m as [|[k' v'] m IH]; simpl.
  - intros ->%list_elem_of_singleton. by left.
  - destruct (String.eqb k' k).
    + intros [->|?]%elem_of_cons; [by left | right; by apply elem_of_cons; right].
    + intros [->|H]%elem_of_cons; [right; by apply elem_of_cons; left |].
      destruct (IH H) as [->|?]; [by left | right; by apply elem_of_cons; right].
Qed.

Lemma JsMap_set_elem_of {V} (k : string) (v : V) (m : JsMap.t V) :
  (k, v) ∈ JsMap.set k v m.
Proof.
  induction m as [|[k' v'] m IH]; simpl.
  - by apply list_elem_of_singleton.
  - destruct (String.eqb k' k); apply elem_of_cons; [by left | by right].
Qed.

(** ** The registry *)

(** The inner loop of [getAllModels], started with [acc] collected so far. *)
Lemma getAllModels_inner_loop (p : ModelProvider.t) (acc : list ModelWithProviderId) :
  fold_left
    (fun models model =>
       models ++ [{| model := model; providerId := ModelProvider.id p |}])
    (ModelProvider.models p) acc
  = acc ++ tagged_models p.
Proof.
  unfold tagged_models. revert acc.
  induction (ModelProvider.models p) as [|m ms IH]; intros acc; simpl.
  - by rewrite app_nil_r.
  - by rewrite IH, <- app_assoc.
Qed.

(** The loops of [getAllModels] concatenate the providers' tagged models. *)
Lemma getAllModels_flat_map (reg : ModelRegistry.t) :
  ModelRegistry.getAllModels reg = flat_map tagged_models (ModelRegistry.getAllProviders reg).
Proof.
  unfold ModelRegistry.getAllModels, ModelRegistry.getAllProviders.
  generalize (JsMap.values (ModelRegistry.providers reg)); intros ps.
  enough (∀ acc,
    fold_left
      (fun models provider =>
         fold_left
           (fun models model =>
              models ++ [{| model := model; providerId := ModelProvider.id provider |}])
           (ModelProvider.models provider) models)
      ps acc
    = acc ++ flat_map tagged_models ps) as H by apply (H []).
  induction ps as [|p ps IH]; intros acc; simpl.
  - by rewrite app_nil_r.
  - by rewrite getAllModels_inner_loop, IH, <- app_assoc.
Qed.

Lemma registerAll_fresh (ps : list ModelProvider.t) (reg : ModelRegistry.t) :
  NoDup (map ModelProvider.id ps) →
  (∀ p, p ∈ ps → ModelRegistry.getProvider (ModelProvider.id p) reg = None) →
  ModelRegistry.providers (registerAll ps reg)
  = ModelRegistry.providers reg ++ map (fun p => (ModelProvider.id p, p)) ps.
Proof.
  revert reg. induction ps as [|p ps IH]; intros reg Hnd Hfresh; simpl.
  - by rewrite app_nil_r.
  - apply NoDup_cons in Hnd as [Hp Hnd].
    unfold ModelRegistry.getProvider in Hfresh.
    rewrite IH; [| done |].
    + simpl. rewrite JsMap_set_fresh by (apply Hfresh; by left).
      by rewrite <- app_assoc.
    + intros q Hq. unfold ModelRegistry.getProvider. simpl.
      rewrite JsMap_set_fresh by (apply Hfresh; by left).
      apply JsMap_get_snoc; [apply Hfresh; by right |].
      intros Heq. apply Hp. rewrite Heq. apply list_elem_of_fmap. by exists q.
Qed.

Lemma length_flat_map_tagged (ps : list ModelProvider.t) :
  length (flat_map tagged_models ps)
  = sum_list (map (fun p => length (ModelProvider.models p)) ps).
Proof.
  induction ps as [|p ps IH]; simpl; [done |].
  rewrite length_app, IH. unfold tagged_models. by rewrite length_map.
Qed.

(** Registering providers under fresh, pairwise distinct ids appends their
    tagged models to what the registry listed before. *)
Lemma getAllModels_register_fresh (ps : list ModelProvider.t) (reg : ModelRegistry.t) :
  NoDup (map ModelProvider.id ps) →
  (∀ p, p ∈ ps → ModelRegistry.getProvider (ModelProvider.id p) reg = None) →
  ModelRegistry.getAllModels (registerAll ps reg)
  = ModelRegistry.getAllModels reg ++ flat_map tagged_models ps.
Proof.
  intros Hnd Hfresh. rewrite !getAllModels_flat_map.
  unfold ModelRegistry.getAllProviders, JsMap.values.
  rewrite registerAll_fresh by done.
  rewrite map_app, flat_map_app, map_map. simpl. by rewrite map_id.
Qed.

(** The singleton is the empty registry after the registration of the
    catalog's local providers. *)
Lemma modelRegistry_registerAll (modelData : ModelRegistryData.t) :
  modelRegistry modelData
  = registerAll (map ModelRegistry.providerFromData (ModelRegistryData.localProviders modelData))
      ModelRegistry.new.
Proof.
  unfold modelRegistry, ModelRegistry.getInstance, ModelRegistry.registerProvidersFromData,
    registerAll.
  generalize ModelRegistry.new.
  induction (ModelRegistryData.localProviders modelData) as [|d ds IH]; intros reg; simpl;
    [done | apply IH].
Qed.

(** C7, amended: after registering, in an empty registry, providers with
    pairwise distinct ids, [getAllModels] is the concatenation, in
    registration order, of the providers' model lists, each model in its
    list's order and carrying its provider's id; its length is the sum of
    the model counts. *)
Theorem getAllModels_registration_order (ps : list ModelProvider.t) :
  NoDup (map ModelProvider.id ps) →
  ModelRegistry.getAllModels (registerAll ps ModelRegistry.new) = flat_map tagged_models ps
  ∧ length (ModelRegistry.getAllModels (registerAll ps ModelRegistry.new))
    = sum_list (map (fun p => length (ModelProvider.models p)) ps).
Proof.
  intros Hnd.
  assert (ModelRegistry.getAllModels (registerAll ps ModelRegistry.new)
          = flat_map tagged_models ps) as Heq
    by (by rewrite getAllModels_register_fresh).
  split; [exact Heq |]. rewrite Heq. apply length_flat_map_tagged.
Qed.

Lemma getAllModels_registration_order_witness :
  NoDup (map ModelProvider.id (map ModelRegistry.providerFromData [sample_qwen; sample_llama]))
  ∧ ModelRegistry.getAllModels
      (registerAll (map ModelRegistry.providerFromData [sample_qwen; sample_llama])
         ModelRegistry.new)
    = flat_map tagged_models (map ModelRegistry.providerFromData [sample_qwen; sample_llama])
  ∧ length (ModelRegistry.getAllModels
              (registerAll (map ModelRegistry.providerFromData [sample_qwen; sample_llama])
                 ModelRegistry.new))
    = sum_list (map (fun p => length (ModelProvider.models p))
                  (map ModelRegistry.providerFromData [sample_qwen; sample_llama])).
Proof.
  assert (NoDup (map ModelProvider.id
                   (map ModelRegistry.providerFromData [sample_qwen; sample_llama]))) as Hnd
    by (apply (bool_decide_unpack _); vm_compute; exact I).
  split; [exact Hnd |].
  exact (getAllModels_registration_order
           (map ModelRegistry.providerFromData [sample_qwen; sample_llama]) Hnd).
Defined.

(** C7 as stated fails when two registrations use one provider id: the
    model lists below share no identifier, yet the last registration
    replaces the first where it stands, so three models are listed, not
    four, and they are not in registration order. *)
Lemma getAllModels_overwritten_provider :
  NoDup (map ModelDefinition.id (flat_map ModelProvider.models overwriting_registrations))
  ∧ length (ModelRegistry.getAllModels (registerAll overwriting_registrations ModelRegistry.new))
    ≠ sum_list (map (fun p => length (ModelProvider.models p)) overwriting_registrations)
  ∧ map providerId
      (ModelRegistry.getAllModels (registerAll overwriting_registrations ModelRegistry.new))
    ≠ map providerId (flat_map tagged_models overwriting_registrations).
Proof.
  split; [apply (bool_decide_unpack _); vm_compute; exact I |].
  split; vm_compute; discriminate.
Qed.

(** ** Download URLs *)

Lemma registered_from_data (ds : list LocalProviderData.t) (reg : ModelRegistry.t)
    (p : ModelProvider.t) :
  p ∈ ModelRegistry.getAllProviders
        (fold_left (fun this d =>
                      ModelRegistry.registerProvider (ModelRegistry.providerFromData d) this)
           ds reg) →
  p ∈ ModelRegistry.getAllProviders reg
  ∨ ∃ d, d ∈ ds ∧ p = ModelRegistry.providerFromData d.
Proof.
  revert reg. induction ds as [|d ds IH]; intros reg; simpl; [by left |].
  intros [H|(d' & Hd' & ->)]%IH.
  - unfold ModelRegistry.getAllProviders, JsMap.values in H. simpl in H.
    apply list_elem_of_fmap in H as ([k v] & -> & [Heq|H]%JsMap_elem_of_set).
    + right. exists d. split; [by left | by inversion Heq].
    + left. apply list_elem_of_fmap. by exists (k, v).
  - right. exists d'. split; [by right | done].
Qed.

(** C8: every provider of the registry built from the catalog composes the
    download URL of a model as its base URL, the model's repository and the
    model's file name, as [{baseUrl}/{hfRepo}/resolve/main/{fileName}]. *)
Theorem getDownloadUrl_composition (modelData : ModelRegistryData.t)
    (p : ModelProvider.t) (m : ModelDefinition.t) :
  p ∈ ModelRegistry.getAllProviders (modelRegistry modelData) →
  ModelProvider.getDownloadUrl p m
  = ModelProvider.baseUrl p +:+ "/" +:+ ModelDefinition.hfRepo m
      +:+ "/resolve/main/" +:+ ModelDefinition.fileName m.
Proof.
  unfold modelRegistry, ModelRegistry.getInstance, ModelRegistry.registerProvidersFromData.
  intros [H|(d & _ & ->)]%registered_from_data.
  - by apply elem_of_nil in H.
  - reflexivity.
Qed.

Lemma getDownloadUrl_composition_witness :
  ModelRegistry.providerFromData sample_llama
    ∈ ModelRegistry.getAllProviders (modelRegistry sample_catalog)
  ∧ ModelProvider.getDownloadUrl (ModelRegistry.providerFromData sample_llama)
      (sample_model "llama-3.2-3b-instruct-q4_k_m" "Llama-3.2-3B-Instruct-Q4_K_M.gguf"
         "bartowski/Llama-3.2-3B-Instruct-GGUF")
    = "https://huggingface.co" +:+ "/" +:+ "bartowski/Llama-3.2-3B-Instruct-GGUF"
        +:+ "/resolve/main/" +:+ "Llama-3.2-3B-Instruct-Q4_K_M.gguf".
Proof.
  assert (ModelRegistry.providerFromData sample_llama
            ∈ ModelRegistry.getAllProviders (modelRegistry sample_catalog)) as Hin
    by (right; left).
  split; [exact Hin |].
  exact (getDownloadUrl_composition sample_catalog _
           (sample_model "llama-3.2-3b-instruct-q4_k_m" "Llama-3.2-3B-Instruct-Q4_K_M.gguf"
              "bartowski/Llama-3.2-3B-Instruct-GGUF") Hin).
Defined.

Example getDownloadUrl_example :
  ModelProvider.getDownloadUrl (ModelRegistry.providerFromData sample_llama)
    (sample_model "llama-3.2-3b-instruct-q4_k_m" "Llama-3.2-3B-Instruct-Q4_K_M.gguf"
       "bartowski/Llama-3.2-3B-Instruct-GGUF")
  = "https://huggingface.co/bartowski/Llama-3.2-3B-Instruct-GGUF/resolve/main/Llama-3.2-3B-Instruct-Q4_K_M.gguf".
Proof. reflexivity. Qed.

(** ** The object of reasoning providers *)

Lemma insert_sorted_elem_of {A} (x y : N * A) (l : list (N * A)) :
  x ∈ JsObject.insert_sorted y l ↔ x = y ∨ x ∈ l.
Proof.
  induction l as [|z l IH]; simpl.
  - rewrite list_elem_of_singleton. split; [by left | by intros [?|?%elem_of_nil]].
  - destruct (fst y <=? fst z)%N.
    + by rewrite elem_of_cons.
    + rewrite !elem_of_cons, IH. tauto.
Qed.

Lemma sort_by_index_elem_of {A} (x : N * A) (l : list (N * A)) :
  x ∈ JsObject.sort_by_index l ↔ x ∈ l.
Proof.
  unfold JsObject.sort_by_index.
  induction l as [|y l IH]; simpl; [done |].
  by rewrite insert_sorted_elem_of, IH, elem_of_cons.
Qed.

(** [Object.entries] lists the own properties, each once, in some order. *)
Lemma entries_elem_of {V} (o : JsObject.t V) (e : string * V) :
  e ∈ JsObject.entries o ↔ e ∈ o.
Proof.
  unfold JsObject.entries, JsObject.index_entries, JsObject.named_entries.
  rewrite elem_of_app, list_elem_of_fmap, list_elem_of_filter. split.
  - intros [([n e'] & -> & H)|[_ H]]; [| done].
    apply sort_by_index_elem_of, list_elem_of_omap in H as (e0 & He0 & Hf).
    destruct (JsObject.array_index (fst e0)); simplify_eq/=. done.
  - intros He. destruct (JsObject.array_index (fst e)) as [n|] eqn:Hidx.
    + left. exists (n, e). split; [done |].
      apply sort_by_index_elem_of, list_elem_of_omap. exists e. by rewrite Hidx.
    + by right.
Qed.

Lemma assign_elem_of {V} (k : string) (v : V) (o : JsObject.t V) (e : string * V) :
  e ∈ JsObject.assign k v o → e = (k, v) ∨ e ∈ o.
Proof.
  unfold JsObject.assign. destruct (String.eqb k "__proto__"); [by right |].
  apply JsMap_elem_of_set.
Qed.

Lemma cloud_views_elem_of (cps : list CloudProviderData.t) (o : ReasoningProviders)
    (e : string * ReasoningProvider) :
  e ∈ fold_left
        (fun providers cloudProvider =>
           JsObject.assign (CloudProviderData.id cloudProvider) (cloud_view cloudProvider)
             providers)
        cps o →
  e ∈ o ∨ ∃ cp, cp ∈ cps ∧ e = (CloudProviderData.id cp, cloud_view cp).
Proof.
  revert o. induction cps as [|cp cps IH]; intros o; simpl; [by left |].
  intros [[->|H]%assign_elem_of|(cp' & Hcp' & ->)]%IH.
  - right. exists cp. split; [by left | done].
  - by left.
  - right. exists cp'. split; [by right | done].
Qed.

Lemma buildReasoningProviders_elem_of (modelData : ModelRegistryData.t)
    (e : string * ReasoningProvider) :
  e ∈ buildReasoningProviders modelData →
  e = ("local", local_view modelData)
  ∨ ∃ cp, cp ∈ ModelRegistryData.cloudProviders modelData
          ∧ e = (CloudProviderData.id cp, cloud_view cp).
Proof.
  unfold buildReasoningProviders.
  intros [->|H]%assign_elem_of; [by left |].
  apply cloud_views_elem_of in H as [H|H]; [by apply elem_of_nil in H | by right].
Qed.

Lemma buildReasoningProviders_local (modelData : ModelRegistryData.t) :
  ("local", local_view modelData) ∈ buildReasoningProviders modelData.
Proof. unfold buildReasoningProviders, JsObject.assign. apply JsMap_set_elem_of. Qed.

(** The models of the flattened view: those of the local bucket under the
    provider ["local"], those of a cloud provider under its id. *)
Lemma getAllReasoningModels_elem_of (modelData : ModelRegistryData.t)
    (x : ReasoningModelWithProvider) :
  x ∈ getAllReasoningModels modelData →
  (provider x = "local"
   ∧ ∃ m, m ∈ ModelRegistry.getAllModels (modelRegistry modelData)
          ∧ value (base x) = ModelDefinition.id (model m))
  ∨ ∃ cp cm, cp ∈ ModelRegistryData.cloudProviders modelData
             ∧ cm ∈ CloudProviderData.models cp
             ∧ provider x = CloudProviderData.id cp
             ∧ value (base x) = CloudModelDefinition.id cm.
Proof.
  unfold getAllReasoningModels, REASONING_PROVIDERS.
  rewrite list_elem_of_In, in_flat_map.
  intros ([k p] & He & Hx).
  apply list_elem_of_In in He. apply (proj1 (entries_elem_of _ _)) in He.
  apply list_elem_of_In in Hx. apply list_elem_of_fmap in Hx as (rm & -> & Hrm). simpl.
  apply buildReasoningProviders_elem_of in He as [He|(cp & Hcp & He)];
    inversion He; subst; clear He; simpl in Hrm.
  - left. split; [done |].
    apply list_elem_of_fmap in Hrm as (m & -> & Hm). by exists m.
  - right. apply list_elem_of_fmap in Hrm as (cm & -> & Hcm). by exists cp, cm.
Qed.

Lemma getAllReasoningModels_local (modelData : ModelRegistryData.t) (m : ModelWithProviderId) :
  m ∈ ModelRegistry.getAllModels (modelRegistry modelData) →
  ∃ x, x ∈ getAllReasoningModels modelData
       ∧ value (base x) = ModelDefinition.id (model m).
Proof.
  intros Hm.
  eexists {| base := {| value := ModelDefinition.id (model m) |};
             provider := "local" |}.
  split; [| done].
  unfold getAllReasoningModels, REASONING_PROVIDERS.
  apply list_elem_of_In, in_flat_map. exists ("local", local_view modelData). split.
  - apply list_elem_of_In. apply (proj2 (entries_elem_of _ _)).
    apply buildReasoningProviders_local.
  - apply list_elem_of_In. apply list_elem_of_fmap. eexists. split; [reflexivity |].
    simpl. apply list_elem_of_fmap. exists m. split; [reflexivity | done].
Qed.

(** ** The provider resolver *)

Lemma find_value_none {A} (f : A → string) (modelId : string) (l : list A) :
  modelId ∉ map f l → find (fun m => String.eqb (f m) modelId) l = None.
Proof.
  induction l as [|x l IH]; simpl; [done |].
  intros H. apply not_elem_of_cons in H as [Hx Hl].
  destruct (String.eqb (f x) modelId) eqn:E; [| by apply IH].
  apply String.eqb_eq in E. congruence.
Qed.

(** The conditionals of [getModelProvider] are the rows of the table. *)
Lemma heuristics_follow_table (modelId : string) :
  (if Js.includes modelId "claude" then "anthropic"
   else if Js.includes modelId "gemini" && negb (Js.includes modelId "gemma") then "gemini"
   else if (Js.includes modelId "gpt-4" || Js.includes modelId "gpt-5")
           && negb (Js.includes modelId "gpt-oss")
   then "openai"
   else if Js.includes modelId "qwen/"
           || Js.includes modelId "openai/"
           || Js.includes modelId "llama-3.1-8b-instant"
           || Js.includes modelId "llama-3.3-"
           || Js.includes modelId "mixtral-"
           || Js.includes modelId "gemma2-"
   then "groq"
   else if Js.includes modelId "qwen"
           || Js.includes modelId "llama"
           || Js.includes modelId "mistral"
           || Js.includes modelId "gpt-oss-20b-mxfp4"
   then "local"
   else "")
  = resolve_by_table heuristic_table modelId.
Proof.
  cbn [resolve_by_table heuristic_table resolves_to].
  unfold rule_applies. cbn [existsb forallb any_of none_of].
  by rewrite !orb_false_r, !andb_true_r, !orb_assoc.
Qed.

(** C2: on an identifier that the flattened view does not list, the
    resolver returns what the ordered heuristic table gives, the empty
    string when no row applies; the four identifiers of the specification
    resolve to ["anthropic"], ["groq"], ["local"] and [""]. *)
Theorem getModelProvider_heuristics (modelData : ModelRegistryData.t) (modelId : string) :
  modelId ∉ map (fun m => value (base m)) (getAllReasoningModels modelData) →
  getModelProvider modelData modelId = resolve_by_table heuristic_table modelId
  ∧ (modelId = "claude-3-opus" → getModelProvider modelData modelId = "anthropic")
  ∧ (modelId = "llama-3.3-70b-versatile" → getModelProvider modelData modelId = "groq")
  ∧ (modelId = "llama-local-gguf" → getModelProvider modelData modelId = "local")
  ∧ (modelId = "totally-unknown-model-xyz" → getModelProvider modelData modelId = "").
Proof.
  intros Hmiss.
  assert (getModelProvider modelData modelId = resolve_by_table heuristic_table modelId) as Heq.
  { unfold getModelProvider.
    rewrite (find_value_none (fun m => value (base m))) by done.
    apply heuristics_follow_table. }
  split; [exact Heq |].
  rewrite Heq. repeat split; intros ->; reflexivity.
Qed.

Lemma getModelProvider_heuristics_witness :
  ("llama-3.3-70b-versatile"
     ∉ map (fun m => value (base m)) (getAllReasoningModels sample_catalog))
  ∧ getModelProvider sample_catalog "llama-3.3-70b-versatile"
    = resolve_by_table heuristic_table "llama-3.3-70b-versatile"
  ∧ getModelProvider sample_catalog "llama-3.3-70b-versatile" = "groq".
Proof.
  assert ("llama-3.3-70b-versatile"
            ∉ map (fun m => value (base m)) (getAllReasoningModels sample_catalog)) as Hmiss
    by (apply (bool_decide_unpack _); vm_compute; exact I).
  split; [exact Hmiss |].
  destruct (getModelProvider_heuristics sample_catalog "llama-3.3-70b-versatile" Hmiss)
    as (Heq & _ & Hgroq & _).
  split; [exact Heq | exact (Hgroq eq_refl)].
Defined.

(** C1, amended: a model of [getAllModels] whose id no cloud model carries
    resolves to ["local"], the bucket under which the view lists every
    local model, whatever the id looks like to the heuristic rules. *)
Theorem getModelProvider_local_models (modelData : ModelRegistryData.t)
    (m : ModelWithProviderId) :
  m ∈ ModelRegistry.getAllModels (modelRegistry modelData) →
  (∀ cp cm, cp ∈ ModelRegistryData.cloudProviders modelData →
            cm ∈ CloudProviderData.models cp →
            CloudModelDefinition.id cm ≠ ModelDefinition.id (model m)) →
  getModelProvider modelData (ModelDefinition.id (model m)) = "local".
Proof.
  intros Hm Hcloud. unfold getModelProvider.
  destruct (find _ _) as [x|] eqn:Hfind.
  - apply find_some in Hfind as [Hx Hval].
    apply String.eqb_eq in Hval.
    apply list_elem_of_In, getAllReasoningModels_elem_of in Hx
      as [[-> _]|(cp & cm & Hcp & Hcm & _ & Hid)]; [reflexivity |].
    exfalso. apply (Hcloud cp cm Hcp Hcm). congruence.
  - exfalso.
    destruct (getAllReasoningModels_local modelData m Hm) as (x & Hx & Hval).
    apply list_elem_of_In in Hx.
    pose proof (find_none _ _ Hfind x Hx) as Hne. simpl in Hne.
    rewrite Hval, String.eqb_refl in Hne. discriminate.
Qed.

Lemma getModelProvider_local_models_witness :
  sample_lookalike ∈ ModelRegistry.getAllModels (modelRegistry sample_catalog)
  ∧ (∀ cp cm, cp ∈ ModelRegistryData.cloudProviders sample_catalog →
              cm ∈ CloudProviderData.models cp →
              CloudModelDefinition.id cm ≠ ModelDefinition.id (model sample_lookalike))
  ∧ getModelProvider sample_catalog "claude-distill-qwen-7b" = "local".
Proof.
  assert (sample_lookalike ∈ ModelRegistry.getAllModels (modelRegistry sample_catalog)) as Hin
    by (right; left).
  assert (∀ cp cm, cp ∈ ModelRegistryData.cloudProviders sample_catalog →
                   cm ∈ CloudProviderData.models cp →
                   CloudModelDefinition.id cm ≠ ModelDefinition.id (model sample_lookalike))
    as Hcloud.
  { intros cp cm Hcp Hcm.
    apply list_elem_of_singleton in Hcp as ->.
    apply list_elem_of_singleton in Hcm as ->. discriminate. }
  split; [exact Hin |]. split; [exact Hcloud |].
  exact (getModelProvider_local_models sample_catalog sample_lookalike Hin Hcloud).
Defined.

(** C1 as stated fails: [getAllModels] attaches the id of the registry
    provider, here ["qwen"], while the resolver answers ["local"]. *)
Lemma getModelProvider_differs_from_providerId :
  sample_lookalike ∈ ModelRegistry.getAllModels (modelRegistry sample_catalog)
  ∧ providerId sample_lookalike = "qwen"
  ∧ getModelProvider sample_catalog (ModelDefinition.id (model sample_lookalike)) = "local"
  ∧ getModelProvider sample_catalog (ModelDefinition.id (model sample_lookalike))
    ≠ providerId sample_lookalike.
Proof.
  split; [right; left |]. split; [reflexivity |]. split; [reflexivity |].
  vm_compute. discriminate.
Qed.

(** ** The settings cells *)

Lemma eqb_true_only (stored : string) : String.eqb stored "true" = true ↔ stored = "true".
Proof. apply String.eqb_eq. Qed.

Lemma eqb_true_unless_false (stored : string) :
  negb (String.eqb stored "false") = true ↔ stored ≠ "false".
Proof. rewrite negb_true_iff. apply String.eqb_neq. Qed.

(** C4: the deserializer of each boolean cell is a total function that
    follows the cell's own convention: [useLocalWhisper],
    [allowOpenAIFallback] and [allowLocalFallback] read [true] exactly from
    ["true"]; [useReasoningModel] and [preferBuiltInMic] read [true] from
    everything but ["false"]; each of them reads back the boolean that was
    serialized. *)
Theorem boolean_cells_conventions :
  true_only useLocalWhisper_options
  ∧ true_only allowOpenAIFallback_options
  ∧ true_only allowLocalFallback_options
  ∧ true_unless_false useReasoningModel_options
  ∧ true_unless_false preferBuiltInMic_options
  ∧ ∀ v : bool,
      round_trip useLocalWhisper_options v
      ∧ round_trip allowOpenAIFallback_options v
      ∧ round_trip allowLocalFallback_options v
      ∧ round_trip useReasoningModel_options v
      ∧ round_trip preferBuiltInMic_options v.
Proof.
  split; [exact eqb_true_only |]. split; [exact eqb_true_only |].
  split; [exact eqb_true_only |]. split; [exact eqb_true_unless_false |].
  split; [exact eqb_true_unless_false |].
  intros v. unfold round_trip. by destruct v.
Qed.

(** C10: the deserializer of the [activationMode] cell is a total function
    into ["tap"] and ["push"]: ["push"] is read as ["push"], every other
    stored string, the empty one included, as ["tap"]. *)
Theorem activationMode_deserialize (stored : string) :
  (deserialize activationMode_options stored = "push" ↔ stored = "push")
  ∧ (deserialize activationMode_options stored = "tap" ↔ stored ≠ "push")
  ∧ (deserialize activationMode_options stored = "tap"
     ∨ deserialize activationMode_options stored = "push")
  ∧ deserialize activationMode_options "" = "tap"
  ∧ deserialize activationMode_options "PUSH" = "tap"
  ∧ deserialize activationMode_options "{not json" = "tap".
Proof.
  simpl. destruct (String.eqb stored "push") eqn:E.
  - apply String.eqb_eq in E. repeat split; try done; auto.
  - apply String.eqb_neq in E. repeat split; try done; auto.
Qed.

(** ** The hook *)

Section SettingsProperties.

Variable modelData : ModelRegistryData.t.
Variable API_ENDPOINTS : ApiEndpoints.
Variable electronAPI : option ElectronAPI.

Local Notation "'hook'" := (useSettings modelData API_ENDPOINTS electronAPI).

Lemma optional_call_storage (has_method : ElectronAPI → bool) (e : Effect) (w : World) :
  localStorage (optional_call electronAPI has_method e w) = localStorage w.
Proof.
  unfold optional_call. destruct electronAPI as [api|]; [| done].
  by destruct (has_method api).
Qed.

Lemma optional_call_effects (has_method : ElectronAPI → bool) (e : Effect) (w : World) :
  effects (optional_call electronAPI has_method e w)
  = effects w ++ bridge_effects electronAPI has_method e.
Proof.
  unfold optional_call, bridge_effects. destruct electronAPI as [api|]; simpl.
  - destruct (has_method api); simpl; [done | by rewrite app_nil_r].
  - by rewrite app_nil_r.
Qed.

Lemma setOpenaiApiKey_storage (w0 w : World) (key : string) :
  localStorage (setOpenaiApiKey (hook w0) key w) = <["openaiApiKey" := key]> (localStorage w).
Proof. cbn. unfold seq. cbn. by rewrite optional_call_storage. Qed.

Lemma setAnthropicApiKey_storage (w0 w : World) (key : string) :
  localStorage (setAnthropicApiKey (hook w0) key w)
  = <["anthropicApiKey" := key]> (localStorage w).
Proof. cbn. unfold seq. cbn. by rewrite optional_call_storage. Qed.

Lemma setGeminiApiKey_storage (w0 w : World) (key : string) :
  localStorage (setGeminiApiKey (hook w0) key w) = <["geminiApiKey" := key]> (localStorage w).
Proof. cbn. unfold seq. cbn. by rewrite optional_call_storage. Qed.

Lemma setGroqApiKey_storage (w0 w : World) (key : string) :
  localStorage (setGroqApiKey (hook w0) key w) = <["groqApiKey" := key]> (localStorage w).
Proof. cbn. unfold seq. cbn. by rewrite optional_call_storage. Qed.

Lemma setGroqApiKey_effects (w0 w : World) (key : string) :
  effects (setGroqApiKey (hook w0) key w)
  = effects w ++ bridge_effects electronAPI has_saveGroqKey (SaveGroqKey key)
      ++ [ClearApiKeyCache "groq"].
Proof.
  cbn. unfold seq. cbn. rewrite optional_call_effects. cbn. by rewrite <- app_assoc.
Qed.

(** [updateApiKeys] runs the wrapped setters of the fields that are present. *)
Lemma updateApiKeys_unfold (w0 : World) (keys : ApiKeySettings) :
  updateApiKeys (hook w0) keys
  = (if_defined (ak_openaiApiKey keys) (setOpenaiApiKey (hook w0)) ;;
     if_defined (ak_anthropicApiKey keys) (setAnthropicApiKey (hook w0)) ;;
     if_defined (ak_geminiApiKey keys) (setGeminiApiKey (hook w0)) ;;
     if_defined (ak_groqApiKey keys) (setGroqApiKey (hook w0)))%action.
Proof. reflexivity. Qed.

Lemma if_defined_lookup (field : option string) (set : string → Action)
    (key k : string) (w : World) :
  (∀ v w', localStorage (set v w') = <[key := v]> (localStorage w')) →
  localStorage (if_defined field set w) !! k
  = if String.eqb k key
    then match field with Some v => Some v | None => localStorage w !! k end
    else localStorage w !! k.
Proof.
  intros Hset. destruct field as [v|]; simpl.
  - rewrite Hset. destruct (String.eqb k key) eqn:E.
    + apply String.eqb_eq in E as ->. apply lookup_insert_eq.
    + apply String.eqb_neq in E. by apply lookup_insert_ne.
  - by destruct (String.eqb k key).
Qed.

Lemma updateApiKeys_storage (w0 w : World) (keys : ApiKeySettings) (k : string) :
  localStorage (updateApiKeys (hook w0) keys w) !! k
  = match api_key_field keys k with
    | Some v => Some v
    | None => localStorage w !! k
    end.
Proof.
  rewrite updateApiKeys_unfold. unfold seq, api_key_field.
  rewrite (if_defined_lookup _ _ "groqApiKey") by (intros; apply setGroqApiKey_storage).
  rewrite (if_defined_lookup _ _ "geminiApiKey") by (intros; apply setGeminiApiKey_storage).
  rewrite (if_defined_lookup _ _ "anthropicApiKey") by (intros; apply setAnthropicApiKey_storage).
  rewrite (if_defined_lookup _ _ "openaiApiKey") by (intros; apply setOpenaiApiKey_storage).
  destruct (String.eqb k "groqApiKey") eqn:Eq.
  { apply String.eqb_eq in Eq as ->. by destruct (ak_groqApiKey keys). }
  destruct (String.eqb k "geminiApiKey") eqn:Eg.
  { apply String.eqb_eq in Eg as ->. by destruct (ak_geminiApiKey keys). }
  destruct (String.eqb k "anthropicApiKey") eqn:Ea.
  { apply String.eqb_eq in Ea as ->. by destruct (ak_anthropicApiKey keys). }
  destruct (String.eqb k "openaiApiKey") eqn:Eo; [| done].
  by destruct (ak_openaiApiKey keys).
Qed.

(** C6: [updateApiKeys] runs, in order, the wrapped single-field setter of
    each field that is present and nothing else, so a storage key changes
    only if it is the key of a present field; with the groq field alone,
    the groq cell becomes the given key, the groq setter's effects fire, and
    every other cell, the three other API keys among them, is unchanged. *)
Theorem updateApiKeys_frame (w : World) (keys : ApiKeySettings) :
  updateApiKeys (hook w) keys
  = (if_defined (ak_openaiApiKey keys) (setOpenaiApiKey (hook w)) ;;
     if_defined (ak_anthropicApiKey keys) (setAnthropicApiKey (hook w)) ;;
     if_defined (ak_geminiApiKey keys) (setGeminiApiKey (hook w)) ;;
     if_defined (ak_groqApiKey keys) (setGroqApiKey (hook w)))%action
  ∧ (∀ k, localStorage (updateApiKeys (hook w) keys w) !! k
          = match api_key_field keys k with
            | Some v => Some v
            | None => localStorage w !! k
            end)
  ∧ ∀ x,
      updateApiKeys (hook w) (only_groq x) w = setGroqApiKey (hook w) x w
      ∧ localStorage (updateApiKeys (hook w) (only_groq x) w)
        = <["groqApiKey" := x]> (localStorage w)
      ∧ effects (updateApiKeys (hook w) (only_groq x) w)
        = effects w ++ bridge_effects electronAPI has_saveGroqKey (SaveGroqKey x)
            ++ [ClearApiKeyCache "groq"]
      ∧ groqApiKey (hook (updateApiKeys (hook w) (only_groq x) w)) = x
      ∧ openaiApiKey (hook (updateApiKeys (hook w) (only_groq x) w)) = openaiApiKey (hook w)
      ∧ anthropicApiKey (hook (updateApiKeys (hook w) (only_groq x) w))
        = anthropicApiKey (hook w)
      ∧ geminiApiKey (hook (updateApiKeys (hook w) (only_groq x) w)) = geminiApiKey (hook w)
      ∧ ∀ k, k ≠ "groqApiKey" →
             localStorage (updateApiKeys (hook w) (only_groq x) w) !! k = localStorage w !! k.
Proof.
  split; [apply updateApiKeys_unfold |].
  split; [intros k; apply updateApiKeys_storage |].
  intros x.
  assert (updateApiKeys (hook w) (only_groq x) w = setGroqApiKey (hook w) x w) as Hgroq
    by reflexivity.
  assert (localStorage (updateApiKeys (hook w) (only_groq x) w)
          = <["groqApiKey" := x]> (localStorage w)) as Hst
    by (rewrite Hgroq; apply setGroqApiKey_storage).
  split; [exact Hgroq |]. split; [exact Hst |].
  split; [rewrite Hgroq; apply setGroqApiKey_effects |].
  set (w' := updateApiKeys (hook w) (only_groq x) w) in *. clearbody w'.
  split; [| split; [| split; [| split]]].
  - cbn [useSettings useLocalStorage groqApiKey]. rewrite Hst.
    by rewrite lookup_insert_eq.
  - cbn [useSettings useLocalStorage openaiApiKey]. rewrite Hst.
    by rewrite lookup_insert_ne.
  - cbn [useSettings useLocalStorage anthropicApiKey]. rewrite Hst.
    by rewrite lookup_insert_ne.
  - cbn [useSettings useLocalStorage geminiApiKey]. rewrite Hst.
    by rewrite lookup_insert_ne.
  - intros k Hk. rewrite Hst. by apply lookup_insert_ne.
Qed.

Lemma updateReasoningSettings_unfold (w0 : World) (settings : ReasoningSettings) :
  updateReasoningSettings (hook w0) settings
  = (if_defined (rs_useReasoningModel settings) (setUseReasoningModel (hook w0)) ;;
     if_defined (rs_reasoningModel settings) (setReasoningModel (hook w0)) ;;
     if_defined (rs_cloudReasoningBaseUrl settings) (setCloudReasoningBaseUrl (hook w0)))%action.
Proof. reflexivity. Qed.

Lemma updateReasoningSettings_storage (w0 w : World) (settings : ReasoningSettings) :
  localStorage (updateReasoningSettings (hook w0) settings w)
  = (match rs_cloudReasoningBaseUrl settings with
     | Some v => <["cloudReasoningBaseUrl" := v]>
     | None => fun st => st
     end)
      ((match rs_reasoningModel settings with
        | Some v => <["reasoningModel" := v]>
        | None => fun st => st
        end)
         ((match rs_useReasoningModel settings with
           | Some v => <["useReasoningModel" := Js.String_of_bool v]>
           | None => fun st => st
           end) (localStorage w))).
Proof.
  rewrite updateReasoningSettings_unfold. unfold seq.
  by destruct (rs_cloudReasoningBaseUrl settings), (rs_reasoningModel settings),
    (rs_useReasoningModel settings).
Qed.

(** C5: the reasoning provider is computed from the reasoning-model cell on
    every read and no cell holds it: a stored ["reasoningProvider"] entry is
    never read; [updateReasoningSettings] does the same whether or not its
    argument has a [reasoningProvider] field, writes no key besides those
    of the three cells it sets, and has no other effect; after it, the
    provider is the resolver's answer on the model then stored. *)
Theorem reasoningProvider_is_derived (w : World) (settings : ReasoningSettings) :
  reasoningProvider (hook w) = getModelProvider modelData (reasoningModel (hook w))
  ∧ (∀ x, hook {| localStorage := <["reasoningProvider" := x]> (localStorage w);
                  effects := effects w |}
          = hook w)
  ∧ (∀ x, updateReasoningSettings (hook w) (with_reasoningProvider settings x) w
          = updateReasoningSettings (hook w) (with_reasoningProvider settings None) w)
  ∧ (∀ k, k ∉ ["useReasoningModel"; "reasoningModel"; "cloudReasoningBaseUrl"] →
          localStorage (updateReasoningSettings (hook w) settings w) !! k
          = localStorage w !! k)
  ∧ effects (updateReasoningSettings (hook w) settings w) = effects w
  ∧ reasoningProvider (hook (updateReasoningSettings (hook w) settings w))
    = getModelProvider modelData
        (match rs_reasoningModel settings with
         | Some m => m
         | None => reasoningModel (hook w)
         end).
Proof.
  split; [reflexivity |].
  split.
  { intros x. unfold useSettings, useLocalStorage. cbn [localStorage].
    by rewrite !lookup_insert_ne. }
  split; [reflexivity |].
  split.
  { intros k Hk. rewrite updateReasoningSettings_storage.
    apply not_elem_of_cons in Hk as [H1 Hk].
    apply not_elem_of_cons in Hk as [H2 Hk].
    apply not_elem_of_cons in Hk as [H3 _].
    destruct (rs_cloudReasoningBaseUrl settings), (rs_reasoningModel settings),
      (rs_useReasoningModel settings);
      by rewrite ?lookup_insert_ne. }
  split.
  { rewrite updateReasoningSettings_unfold. unfold seq.
    by destruct (rs_cloudReasoningBaseUrl settings), (rs_reasoningModel settings),
      (rs_useReasoningModel settings). }
  pose proof (updateReasoningSettings_storage w w settings) as Hst.
  set (w' := updateReasoningSettings (hook w) settings w) in *. clearbody w'.
  cbn [useSettings useLocalStorage reasoningProvider reasoningModel]. rewrite Hst.
  f_equal.
  destruct (rs_cloudReasoningBaseUrl settings), (rs_reasoningModel settings),
    (rs_useReasoningModel settings);
    repeat (rewrite lookup_insert_ne by done); by rewrite ?lookup_insert_eq.
Qed.

End SettingsProperties.

(** * Further properties of the registry *)

Lemma find_app_first {A} (f : A → bool) (l1 l2 : list A) :
  find f (l1 ++ l2) = match find f l1 with Some x => Some x | None => find f l2 end.
Proof.
  induction l1 as [|x l1 IH]; simpl; [done |]. by destruct (f x).
Qed.

Lemma find_fmap {A B} (f : B → bool) (g : A → B) (l : list A) :
  find f (map g l) = g <$> find (fun x => f (g x)) l.
Proof.
  induction l as [|x l IH]; simpl; [done |]. by destruct (f (g x)).
Qed.

Lemma find_none_iff {A} (f : A → bool) (l : list A) :
  find f l = None ↔ ∀ x, x ∈ l → f x = false.
Proof.
  induction l as [|x l IH]; simpl.
  - split; [intros _ y Hy; by apply elem_of_nil in Hy | done].
  - destruct (f x) eqn:E.
    + split; [done |]. intros H. specialize (H x ltac:(by left)). congruence.
    + rewrite IH. split.
      * intros H y [->|Hy]%elem_of_cons; [done | by apply H].
      * intros H y Hy. apply H. by right.
Qed.

Lemma JsMap_get_set {V} (k k' : string) (v : V) (m : JsMap.t V) :
  JsMap.get k (JsMap.set k' v m) = if String.eqb k' k then Some v else JsMap.get k m.
Proof.
  induction m as [|[k0 v0] m IH]; simpl.
  - by destruct (String.eqb k' k).
  - destruct (String.eqb k0 k') eqn:E0; simpl.
    + apply String.eqb_eq in E0 as ->. by destruct (String.eqb k' k).
    + destruct (String.eqb k0 k) eqn:E1; [| exact IH].
      apply String.eqb_eq in E1 as ->.
      rewrite String.eqb_sym in E0. by rewrite E0.
Qed.

Lemma JsMap_length_set {V} (k : string) (v : V) (m : JsMap.t V) :
  length (JsMap.set k v m)
  = match JsMap.get k m with Some _ => length m | None => S (length m) end.
Proof.
  induction m as [|[k0 v0] m IH]; simpl; [done |].
  destruct (String.eqb k0 k); simpl; [done |].
  rewrite IH. by destruct (JsMap.get k m).
Qed.

Lemma JsMap_keys_set {V} (k : string) (v : V) (m : JsMap.t V) :
  map fst (JsMap.set k v m)
  = match JsMap.get k m with Some _ => map fst m | None => map fst m ++ [k] end.
Proof.
  induction m as [|[k0 v0] m IH]; simpl; [done |].
  destruct (String.eqb k0 k) eqn:E; simpl.
  - apply String.eqb_eq in E as ->. done.
  - rewrite IH. by destruct (JsMap.get k m).
Qed.

Lemma JsMap_get_None {V} (k : string) (m : JsMap.t V) :
  JsMap.get k m = None ↔ k ∉ map fst m.
Proof.
  induction m as [|[k0 v0] m IH]; simpl.
  - split; [intros _; apply not_elem_of_nil | done].
  - rewrite not_elem_of_cons, <- IH.
    destruct (String.eqb k0 k) eqn:E.
    + apply String.eqb_eq in E as ->. split; [done | by intros [? _]].
    + apply String.eqb_neq in E. split; [by intros -> | by intros [_ ->]].
Qed.

Lemma JsMap_get_Some {V} (k : string) (v : V) (m : JsMap.t V) :
  JsMap.get k m = Some v → (k, v) ∈ m.
Proof.
  induction m as [|[k0 v0] m IH]; simpl; [done |].
  destruct (String.eqb k0 k) eqn:E.
  - apply String.eqb_eq in E as ->. intros [= ->]. by left.
  - intros H. right. by apply IH.
Qed.

Lemma JsMap_elem_of_get {V} (k : string) (v : V) (m : JsMap.t V) :
  NoDup (map fst m) → (k, v) ∈ m → JsMap.get k m = Some v.
Proof.
  induction m as [|[k0 v0] m IH]; simpl; intros Hnd Hin.
  - by apply elem_of_nil in Hin.
  - apply NoDup_cons in Hnd as [Hk0 Hnd].
    apply elem_of_cons in Hin as [[= -> ->]|Hin]; [by rewrite String.eqb_refl |].
    destruct (String.eqb k0 k) eqn:E; [| by apply IH].
    apply String.eqb_eq in E as ->. exfalso. apply Hk0.
    apply list_elem_of_fmap. by exists (k, v).
Qed.

Lemma well_keyed_new : well_keyed ModelRegistry.new.
Proof.
  split; [apply NoDup_nil_2 |]. intros k p H. by apply elem_of_nil in H.
Qed.

Lemma well_keyed_registerProvider (p : ModelProvider.t) (reg : ModelRegistry.t) :
  well_keyed reg → well_keyed (ModelRegistry.registerProvider p reg).
Proof.
  intros [Hnd Hkey]. split; simpl.
  - rewrite JsMap_keys_set.
    destruct (JsMap.get (ModelProvider.id p) (ModelRegistry.providers reg)) eqn:E; [done |].
    apply NoDup_app. split; [done |]. split; [| apply NoDup_singleton].
    intros k Hk ->%list_elem_of_singleton. by apply JsMap_get_None in E.
  - intros k q [[= -> ->]|H]%JsMap_elem_of_set; [done | by apply Hkey].
Qed.

Lemma well_keyed_registerAll (ps : list ModelProvider.t) (reg : ModelRegistry.t) :
  well_keyed reg → well_keyed (registerAll ps reg).
Proof.
  revert reg. induction ps as [|p ps IH]; intros reg H; simpl; [done |].
  by apply IH, well_keyed_registerProvider.
Qed.

Lemma registerAll_elem_of (ps : list ModelProvider.t) (reg : ModelRegistry.t)
    (e : string * ModelProvider.t) :
  e ∈ ModelRegistry.providers (registerAll ps reg) →
  e ∈ ModelRegistry.providers reg ∨ snd e ∈ ps.
Proof.
  revert reg. induction ps as [|p ps IH]; intros reg; simpl; [by left |].
  intros [[->|H]%JsMap_elem_of_set|H]%IH.
  - right. by left.
  - by left.
  - right. by right.
Qed.

Lemma registerAll_length (ps : list ModelProvider.t) (reg : ModelRegistry.t) :
  length (ModelRegistry.providers (registerAll ps reg))
  ≤ length (ModelRegistry.providers reg) + length ps.
Proof.
  revert reg. induction ps as [|p ps IH]; intros reg; simpl; [lia |].
  etrans; [apply IH |]. simpl. rewrite JsMap_length_set.
  destruct (JsMap.get _ _); lia.
Qed.

(** Lookup after registration: [registerProvider] answers for the id of the
    provider it stores and leaves every other id as it was; the registry
    grows by one provider exactly when the id was not registered before. *)
Theorem getProvider_registerProvider (p : ModelProvider.t) (reg : ModelRegistry.t)
    (providerId : string) :
  ModelRegistry.getProvider providerId (ModelRegistry.registerProvider p reg)
  = (if String.eqb (ModelProvider.id p) providerId then Some p
     else ModelRegistry.getProvider providerId reg)
  ∧ length (ModelRegistry.getAllProviders (ModelRegistry.registerProvider p reg))
    = match ModelRegistry.getProvider (ModelProvider.id p) reg with
      | Some _ => length (ModelRegistry.getAllProviders reg)
      | None => S (length (ModelRegistry.getAllProviders reg))
      end.
Proof.
  unfold ModelRegistry.getProvider, ModelRegistry.getAllProviders, JsMap.values. simpl.
  split; [apply JsMap_get_set |].
  rewrite !length_map, JsMap_length_set. by destruct (JsMap.get _ _).
Qed.

(** Whatever is registered, in whatever order and with whatever repeated
    ids, the registry lists providers with pairwise distinct ids, each of
    them one of the registered ones, and [getProvider] finds each listed
    provider under its own id and nothing under another id. *)
Theorem registry_ids_distinct (ps : list ModelProvider.t) :
  NoDup (map ModelProvider.id (ModelRegistry.getAllProviders (registerAll ps ModelRegistry.new)))
  ∧ (∀ p, p ∈ ModelRegistry.getAllProviders (registerAll ps ModelRegistry.new) →
          p ∈ ps
          ∧ ModelRegistry.getProvider (ModelProvider.id p) (registerAll ps ModelRegistry.new)
            = Some p)
  ∧ (∀ k p, ModelRegistry.getProvider k (registerAll ps ModelRegistry.new) = Some p →
            ModelProvider.id p = k
            ∧ p ∈ ModelRegistry.getAllProviders (registerAll ps ModelRegistry.new))
  ∧ length (ModelRegistry.getAllProviders (registerAll ps ModelRegistry.new)) ≤ length ps.
Proof.
  pose proof (well_keyed_registerAll ps _ well_keyed_new) as [Hnd Hkey].
  unfold ModelRegistry.getAllProviders, ModelRegistry.getProvider, JsMap.values.
  set (reg := registerAll ps ModelRegistry.new) in *.
  assert (map ModelProvider.id (map snd (ModelRegistry.providers reg))
          = map fst (ModelRegistry.providers reg)) as Hids.
  { rewrite map_map. apply map_ext_in. intros [k p] Hin. simpl.
    symmetry. apply Hkey. by apply list_elem_of_In. }
  split; [by rewrite Hids |]. split; [| split].
  - intros p ([k q] & -> & Hin)%list_elem_of_fmap. simpl. split.
    + apply registerAll_elem_of in Hin as [Hin|Hin]; [by apply elem_of_nil in Hin | done].
    + apply JsMap_elem_of_get; [done |]. by rewrite <- (Hkey k q Hin).
  - intros k p Hget. apply JsMap_get_Some in Hget. split.
    + symmetry. by apply Hkey.
    + apply list_elem_of_fmap. by exists (k, p).
  - rewrite length_map. apply (registerAll_length ps ModelRegistry.new).
Qed.

Lemma getProvider_registerAll (ps : list ModelProvider.t) (reg : ModelRegistry.t)
    (providerId : string) :
  ModelRegistry.getProvider providerId (registerAll ps reg)
  = match find (fun p => String.eqb (ModelProvider.id p) providerId) (rev ps) with
    | Some p => Some p
    | None => ModelRegistry.getProvider providerId reg
    end.
Proof.
  revert reg. induction ps as [|p ps IH]; intros reg; simpl; [done |].
  rewrite IH, find_app_first.
  destruct (find _ (rev ps)); [done |]. simpl.
  unfold ModelRegistry.getProvider. simpl. rewrite JsMap_get_set.
  by destruct (String.eqb (ModelProvider.id p) providerId).
Qed.

(** On the registry seeded from the catalog, [getProvider] returns the
    provider built from the last catalog entry that carries the id, and
    nothing when no entry carries it. *)
Theorem getProvider_last_catalog_entry (modelData : ModelRegistryData.t) (providerId : string) :
  ModelRegistry.getProvider providerId (modelRegistry modelData)
  = ModelRegistry.providerFromData
      <$> find (fun d => String.eqb (LocalProviderData.id d) providerId)
            (rev (ModelRegistryData.localProviders modelData)).
Proof.
  rewrite modelRegistry_registerAll, getProvider_registerAll, <- map_rev, find_fmap.
  simpl. by destruct (find _ _).
Qed.

Lemma getModel_scan (ps : list ModelProvider.t) (modelId : string) :
  tag_found
    <$> (fix scan (ps : list ModelProvider.t) :=
           match ps with
           | [] => None
           | provider :: ps' =>
               match find (fun m => String.eqb (ModelDefinition.id m) modelId)
                       (ModelProvider.models provider) with
               | Some model => Some (model, provider)
               | None => scan ps'
               end
           end) ps
  = find (fun x => String.eqb (ModelDefinition.id (model x)) modelId)
      (flat_map tagged_models ps).
Proof.
  induction ps as [|p ps IH]; simpl; [done |].
  rewrite find_app_first. unfold tagged_models at 1. rewrite find_fmap. simpl.
  destruct (find _ (ModelProvider.models p)); [done | exact IH].
Qed.

Lemma getModel_scan_Some (ps : list ModelProvider.t) (modelId : string)
    (m : ModelDefinition.t) (p : ModelProvider.t) :
  (fix scan (ps : list ModelProvider.t) :=
     match ps with
     | [] => None
     | provider :: ps' =>
         match find (fun m => String.eqb (ModelDefinition.id m) modelId)
                 (ModelProvider.models provider) with
         | Some model => Some (model, provider)
         | None => scan ps'
         end
     end) ps = Some (m, p) →
  p ∈ ps ∧ m ∈ ModelProvider.models p ∧ ModelDefinition.id m = modelId.
Proof.
  induction ps as [|q ps IH]; simpl; [done |].
  destruct (find _ (ModelProvider.models q)) as [m'|] eqn:E.
  - intros [= -> ->]. apply find_some in E as [Hin Heq].
    split; [by left |]. split; [by apply list_elem_of_In | by apply String.eqb_eq].
  - intros H. destruct (IH H) as (? & ? & ?). split; [by right | done].
Qed.

Lemma getModel_find (reg : ModelRegistry.t) (modelId : string) :
  tag_found <$> ModelRegistry.getModel modelId reg
  = find (fun x => String.eqb (ModelDefinition.id (model x)) modelId)
      (ModelRegistry.getAllModels reg).
Proof. rewrite getAllModels_flat_map. apply getModel_scan. Qed.

(** [getModel] agrees with [getAllModels]: it returns the first listed model
    that carries the id, with the provider that lists it, and nothing
    exactly when no listed model carries the id. *)
Theorem getModel_first_listed (reg : ModelRegistry.t) (modelId : string) :
  tag_found <$> ModelRegistry.getModel modelId reg
  = find (fun x => String.eqb (ModelDefinition.id (model x)) modelId)
      (ModelRegistry.getAllModels reg)
  ∧ (ModelRegistry.getModel modelId reg = None
     ↔ modelId ∉ map (fun x => ModelDefinition.id (model x)) (ModelRegistry.getAllModels reg))
  ∧ ∀ m p, ModelRegistry.getModel modelId reg = Some (m, p) →
           p ∈ ModelRegistry.getAllProviders reg
           ∧ m ∈ ModelProvider.models p
           ∧ ModelDefinition.id m = modelId.
Proof.
  assert (tag_found <$> ModelRegistry.getModel modelId reg
          = find (fun x => String.eqb (ModelDefinition.id (model x)) modelId)
              (ModelRegistry.getAllModels reg)) as Hfind
    by apply getModel_find.
  split; [exact Hfind |]. split.
  - transitivity (find (fun x => String.eqb (ModelDefinition.id (model x)) modelId)
                    (ModelRegistry.getAllModels reg) = None).
    + rewrite <- Hfind. by destruct (ModelRegistry.getModel modelId reg).
    + rewrite find_none_iff. split.
      * intros H (x & -> & Hx)%list_elem_of_fmap.
        specialize (H x Hx). by rewrite String.eqb_refl in H.
      * intros H x Hx. apply String.eqb_neq. intros Heq. apply H.
        apply list_elem_of_fmap. by exists x.
  - intros m p. apply getModel_scan_Some.
Qed.

(** * Further properties of the resolver and the view *)

(** Every model of the flattened view comes from one entry of the object of
    reasoning providers; its full label is the entry's name, a space and
    the model's label. *)
Lemma getAllReasoningModels_entry (modelData : ModelRegistryData.t)
    (x : ReasoningModelWithProvider) :
  x ∈ getAllReasoningModels modelData →
  ∃ p, (provider x, p) ∈ buildReasoningProviders modelData
       ∧ base x ∈ rp_models p
       ∧ fullLabel x = rp_name p +:+ " " +:+ label (base x).
Proof.
  unfold getAllReasoningModels, REASONING_PROVIDERS.
  rewrite list_elem_of_In, in_flat_map. intros ([k p] & He & Hx).
  apply list_elem_of_In in He. apply (proj1 (entries_elem_of _ _)) in He.
  apply list_elem_of_In in Hx. apply list_elem_of_fmap in Hx as (rm & -> & Hrm).
  by exists p.
Qed.

Lemma append_space_nonempty (a b : string) : a +:+ " " +:+ b ≠ "".
Proof. destruct a; [by destruct b | done]. Qed.

(** [getReasoningModelLabel] never fails: an identifier the view does not
    list comes back unchanged, and a listed one gives the provider's
    display name, a space and the model's label, for a model of the view
    that carries the identifier. *)
Theorem getReasoningModelLabel_total (modelData : ModelRegistryData.t) (modelId : string) :
  (modelId ∉ map (fun m => value (base m)) (getAllReasoningModels modelData) →
   getReasoningModelLabel modelData modelId = modelId)
  ∧ (modelId ∈ map (fun m => value (base m)) (getAllReasoningModels modelData) →
     ∃ k p rm, (k, p) ∈ buildReasoningProviders modelData
               ∧ rm ∈ rp_models p
               ∧ value rm = modelId
               ∧ getModelProvider modelData modelId = k
               ∧ getReasoningModelLabel modelData modelId = rp_name p +:+ " " +:+ label rm).
Proof.
  unfold getReasoningModelLabel, getModelProvider. split.
  - intros Hmiss. by rewrite (find_value_none (fun m => value (base m))).
  - intros Hin. destruct (find _ _) as [x|] eqn:Hfind.
    + apply find_some in Hfind as [Hx Hval]. apply String.eqb_eq in Hval.
      apply list_elem_of_In, getAllReasoningModels_entry in Hx as (p & Hp & Hrm & Hfull).
      exists (provider x), p, (base x). repeat split; try done.
      * unfold Js.or. by destruct (String.eqb (provider x) "") eqn:E;
          [apply String.eqb_eq in E |].
      * rewrite Hfull. unfold Js.or.
        destruct (String.eqb _ "") eqn:E; [| done].
        apply String.eqb_eq in E. by apply append_space_nonempty in E.
    + exfalso. apply list_elem_of_fmap in Hin as (x & -> & Hx).
      apply list_elem_of_In in Hx. pose proof (find_none _ _ Hfind x Hx) as Hne.
      simpl in Hne. by rewrite String.eqb_refl in Hne.
Qed.

(** Membership in a list that is written out. *)
Ltac in_list := repeat first [by apply list_elem_of_here | apply list_elem_of_further].

Lemma heuristics_range (modelId : string) :
  resolve_by_table heuristic_table modelId
  ∈ ["anthropic"; "gemini"; "openai"; "groq"; "local"; ""].
Proof.
  cbn [resolve_by_table heuristic_table resolves_to].
  repeat (destruct (rule_applies modelId _); [in_list |]). in_list.
Qed.

(** The resolver answers with the id of a cloud provider of the catalog or
    with one of ["anthropic"], ["gemini"], ["openai"], ["groq"], ["local"]
    and the empty string, and with nothing else. *)
Theorem getModelProvider_range (modelData : ModelRegistryData.t) (modelId : string) :
  getModelProvider modelData modelId
  ∈ ["anthropic"; "gemini"; "openai"; "groq"; "local"; ""]
    ++ map CloudProviderData.id (ModelRegistryData.cloudProviders modelData).
Proof.
  apply elem_of_app.
  destruct (decide (modelId ∈ map (fun m => value (base m))
                                (getAllReasoningModels modelData))) as [Hin|Hmiss].
  - unfold getModelProvider.
    destruct (find _ _) as [x|] eqn:Hfind.
    + apply find_some in Hfind as [Hx _].
      assert (Js.or (provider x) "" = provider x) as ->.
      { unfold Js.or. by destruct (String.eqb (provider x) "") eqn:E;
          [apply String.eqb_eq in E |]. }
      apply list_elem_of_In, getAllReasoningModels_elem_of in Hx
        as [[-> _]|(cp & cm & Hcp & _ & -> & _)].
      * left. in_list.
      * right. apply list_elem_of_fmap. by exists cp.
    + exfalso. apply list_elem_of_fmap in Hin as (x & -> & Hx).
      apply list_elem_of_In in Hx. pose proof (find_none _ _ Hfind x Hx) as Hne.
      simpl in Hne. by rewrite String.eqb_refl in Hne.
  - left. unfold getModelProvider.
    rewrite (find_value_none (fun m => value (base m))) by done.
    rewrite heuristics_follow_table. apply heuristics_range.
Qed.

Lemma assign_keeps {V} (k : string) (v : V) (o : JsObject.t V) (e : string * V) :
  e ∈ o → fst e ≠ k → e ∈ JsObject.assign k v o.
Proof.
  unfold JsObject.assign. destruct (String.eqb k "__proto__"); [done |].
  intros He Hne. induction o as [|[k0 v0] o IH]; simpl.
  - by apply elem_of_nil in He.
  - destruct (String.eqb k0 k) eqn:E.
    + apply String.eqb_eq in E as ->.
      apply elem_of_cons in He as [->|He]; [done | by right].
    + apply elem_of_cons in He as [->|He]; [by left | right; by apply IH].
Qed.

Lemma assign_new {V} (k : string) (v : V) (o : JsObject.t V) :
  k ≠ "__proto__" → (k, v) ∈ JsObject.assign k v o.
Proof.
  intros Hk. unfold JsObject.assign.
  apply String.eqb_neq in Hk as ->. apply JsMap_set_elem_of.
Qed.

Lemma cloud_views_keep (cps : list CloudProviderData.t) (o : ReasoningProviders)
    (e : string * ReasoningProvider) :
  e ∈ o → (∀ c, c ∈ cps → CloudProviderData.id c ≠ fst e) →
  e ∈ fold_left
        (fun providers cloudProvider =>
           JsObject.assign (CloudProviderData.id cloudProvider) (cloud_view cloudProvider)
             providers)
        cps o.
Proof.
  revert o. induction cps as [|c cps IH]; intros o He Hne; simpl; [done |].
  apply IH.
  - apply assign_keeps; [done |]. intros Heq. by apply (Hne c); [left |].
  - intros c' Hc'. apply Hne. by right.
Qed.

Lemma cloud_views_listed (cps : list CloudProviderData.t) (o : ReasoningProviders)
    (cp : CloudProviderData.t) :
  NoDup (map CloudProviderData.id cps) → cp ∈ cps → CloudProviderData.id cp ≠ "__proto__" →
  (CloudProviderData.id cp, cloud_view cp)
  ∈ fold_left
      (fun providers cloudProvider =>
         JsObject.assign (CloudProviderData.id cloudProvider) (cloud_view cloudProvider)
           providers)
      cps o.
Proof.
  revert o. induction cps as [|c cps IH]; intros o Hnd Hin Hproto; simpl.
  - by apply elem_of_nil in Hin.
  - apply NoDup_cons in Hnd as [Hc Hnd].
    apply elem_of_cons in Hin as [->|Hin]; [| by apply IH].
    apply cloud_views_keep; [by apply assign_new |].
    intros c' Hc' Heq. apply Hc. simpl in Heq. rewrite <- Heq.
    apply list_elem_of_fmap. by exists c'.
Qed.

Lemma NoDup_fmap_eq {A B} (f : A → B) (l : list A) (x y : A) :
  NoDup (map f l) → x ∈ l → y ∈ l → f x = f y → x = y.
Proof.
  induction l as [|z l IH]; simpl; intros Hnd Hx Hy Heq.
  - by apply elem_of_nil in Hx.
  - apply NoDup_cons in Hnd as [Hz Hnd].
    apply elem_of_cons in Hx as [->|Hx]; apply elem_of_cons in Hy as [->|Hy].
    + done.
    + exfalso. apply Hz. rewrite Heq. apply list_elem_of_fmap. by exists y.
    + exfalso. apply Hz. rewrite <- Heq. apply list_elem_of_fmap. by exists x.
    + by apply IH.
Qed.

(** When the cloud providers of the catalog have pairwise distinct ids and
    the identifiers of the view are pairwise distinct, the resolver maps
    the id of a cloud model to the id of the provider that lists it, for
    every provider whose id is neither ["local"] nor ["__proto__"]. *)
Theorem getModelProvider_cloud_models (modelData : ModelRegistryData.t)
    (cp : CloudProviderData.t) (cm : CloudModelDefinition.t) :
  cp ∈ ModelRegistryData.cloudProviders modelData →
  cm ∈ CloudProviderData.models cp →
  NoDup (map CloudProviderData.id (ModelRegistryData.cloudProviders modelData)) →
  NoDup (map (fun m => value (base m)) (getAllReasoningModels modelData)) →
  CloudProviderData.id cp ≠ "local" →
  CloudProviderData.id cp ≠ "__proto__" →
  getModelProvider modelData (CloudModelDefinition.id cm) = CloudProviderData.id cp.
Proof.
  intros Hcp Hcm Hids Hvalues Hlocal Hproto.
  set (x := {| base := {| value := CloudModelDefinition.id cm;
                          label := CloudModelDefinition.name cm;
                          rm_description := CloudModelDefinition.description cm |};
               provider := CloudProviderData.id cp;
               fullLabel := CloudProviderData.name cp +:+ " " +:+ CloudModelDefinition.name cm |}).
  assert (x ∈ getAllReasoningModels modelData) as Hx.
  { unfold getAllReasoningModels, REASONING_PROVIDERS.
    apply list_elem_of_In, in_flat_map.
    exists (CloudProviderData.id cp, cloud_view cp). split.
    - apply list_elem_of_In. apply (proj2 (entries_elem_of _ _)).
      unfold buildReasoningProviders. apply assign_keeps; [| done].
      by apply cloud_views_listed.
    - apply list_elem_of_In. apply list_elem_of_fmap. exists (base x).
      split; [reflexivity |]. simpl. apply list_elem_of_fmap. by exists cm. }
  unfold getModelProvider. destruct (find _ _) as [y|] eqn:Hfind.
  - apply find_some in Hfind as [Hy Hval]. apply String.eqb_eq in Hval.
    apply list_elem_of_In in Hy.
    assert (y = x) as -> by (by apply (NoDup_fmap_eq _ _ _ _ Hvalues)).
    simpl. unfold Js.or. destruct (String.eqb _ "") eqn:E; [| done].
    by apply String.eqb_eq in E.
  - exfalso. apply list_elem_of_In in Hx.
    pose proof (find_none _ _ Hfind x Hx) as Hne. simpl in Hne.
    by rewrite String.eqb_refl in Hne.
Qed.

Lemma getModelProvider_cloud_models_witness :
  sample_openai ∈ ModelRegistryData.cloudProviders sample_catalog
  ∧ getModelProvider sample_catalog "gpt-5" = "openai".
Proof.
  assert (sample_openai ∈ ModelRegistryData.cloudProviders sample_catalog) as Hcp by left.
  split; [exact Hcp |].
  refine (getModelProvider_cloud_models sample_catalog sample_openai
            {| CloudModelDefinition.id := "gpt-5";
               CloudModelDefinition.name := "GPT-5";
               CloudModelDefinition.description := "Flagship";
               CloudModelDefinition.disableThinking := None |}
            Hcp _ _ _ _ _).
  - left.
  - apply (bool_decide_unpack _); vm_compute; exact I.
  - apply (bool_decide_unpack _); vm_compute; exact I.
  - discriminate.
  - discriminate.
Defined.

Lemma getCloudModel_scan (cps : list CloudProviderData.t) (modelId : string) :
  (fix scan (ps : list CloudProviderData.t) :=
     match ps with
     | [] => None
     | provider :: ps' =>
         match find (fun m => String.eqb (CloudModelDefinition.id m) modelId)
                 (CloudProviderData.models provider) with
         | Some model => Some model
         | None => scan ps'
         end
     end) cps
  = find (fun m => String.eqb (CloudModelDefinition.id m) modelId)
      (flat_map CloudProviderData.models cps).
Proof.
  induction cps as [|c cps IH]; simpl; [done |].
  rewrite find_app_first. by destruct (find _ (CloudProviderData.models c)).
Qed.

Lemma getCloudModel_None (modelData : ModelRegistryData.t) (modelId : string) :
  getCloudModel modelData modelId = None
  ↔ ∀ cp cm, cp ∈ ModelRegistryData.cloudProviders modelData →
             cm ∈ CloudProviderData.models cp →
             CloudModelDefinition.id cm ≠ modelId.
Proof.
  unfold getCloudModel. rewrite getCloudModel_scan, find_none_iff. split.
  - intros H cp cm Hcp Hcm. apply String.eqb_neq, H.
    apply list_elem_of_In, in_flat_map. exists cp. by rewrite <- !list_elem_of_In.
  - intros H cm Hcm. apply list_elem_of_In, in_flat_map in Hcm as (cp & Hcp & Hcm).
    apply String.eqb_neq. apply (H cp cm); by apply list_elem_of_In.
Qed.

(** [getCloudModel] returns the first model, in catalog order, that carries
    the id, and nothing exactly when no cloud model carries it. *)
Theorem getCloudModel_first_listed (modelData : ModelRegistryData.t) (modelId : string) :
  getCloudModel modelData modelId
  = find (fun m => String.eqb (CloudModelDefinition.id m) modelId)
      (flat_map CloudProviderData.models (ModelRegistryData.cloudProviders modelData))
  ∧ (∀ cm, getCloudModel modelData modelId = Some cm →
           CloudModelDefinition.id cm = modelId
           ∧ ∃ cp, cp ∈ ModelRegistryData.cloudProviders modelData
                   ∧ cm ∈ CloudProviderData.models cp)
  ∧ (getCloudModel modelData modelId = None
     ↔ ∀ cp cm, cp ∈ ModelRegistryData.cloudProviders modelData →
                cm ∈ CloudProviderData.models cp →
                CloudModelDefinition.id cm ≠ modelId).
Proof.
  split; [apply getCloudModel_scan |]. split; [| apply getCloudModel_None].
  unfold getCloudModel. rewrite getCloudModel_scan.
  intros cm [Hin Heq]%find_some. split; [by apply String.eqb_eq |].
  apply in_flat_map in Hin as (cp & Hcp & Hcm).
  exists cp. by rewrite !list_elem_of_In.
Qed.

(** An identifier that neither [getCloudModel] nor [getModel] on the seeded
    registry knows is resolved by the heuristic rules alone. *)
Theorem getModelProvider_unknown_everywhere (modelData : ModelRegistryData.t)
    (modelId : string) :
  getCloudModel modelData modelId = None →
  ModelRegistry.getModel modelId (modelRegistry modelData) = None →
  getModelProvider modelData modelId = resolve_by_table heuristic_table modelId
  ∧ getReasoningModelLabel modelData modelId = modelId.
Proof.
  intros Hcloud Hlocal.
  pose proof (proj1 (getCloudModel_None modelData modelId) Hcloud) as Hnocloud.
  assert (modelId ∉ map (fun m => value (base m)) (getAllReasoningModels modelData)) as Hmiss.
  { intros (x & -> & Hx)%list_elem_of_fmap.
    apply getAllReasoningModels_elem_of in Hx as [[_ (m & Hm & Hval)]|(cp & cm & Hcp & Hcm & _ & Hval)].
    - assert (tag_found <$> ModelRegistry.getModel (value (base x)) (modelRegistry modelData)
              = None) as Hnone by (by rewrite Hlocal).
      rewrite getModel_find in Hnone.
      pose proof (proj1 (find_none_iff _ _) Hnone m Hm) as Hne. simpl in Hne.
      by rewrite Hval, String.eqb_refl in Hne.
    - by apply (Hnocloud cp cm). }
  unfold getModelProvider, getReasoningModelLabel.
  rewrite (find_value_none (fun m => value (base m))) by done.
  split; [apply heuristics_follow_table | done].
Qed.

Lemma getModelProvider_unknown_everywhere_witness :
  getCloudModel sample_catalog "mixtral-8x7b-32768" = None
  ∧ ModelRegistry.getModel "mixtral-8x7b-32768" (modelRegistry sample_catalog) = None
  ∧ getModelProvider sample_catalog "mixtral-8x7b-32768"
    = resolve_by_table heuristic_table "mixtral-8x7b-32768"
  ∧ getReasoningModelLabel sample_catalog "mixtral-8x7b-32768" = "mixtral-8x7b-32768".
Proof.
  split; [reflexivity |]. split; [reflexivity |].
  apply (getModelProvider_unknown_everywhere sample_catalog "mixtral-8x7b-32768");
    reflexivity.
Defined.

Lemma JsMap_get_fmap_None {A V} (ident : A → string) (f : A → V) (l : list A) (k : string) :
  (∀ x, x ∈ l → ident x ≠ k) → JsMap.get k (map (fun x => (ident x, f x)) l) = None.
Proof.
  intros Hne. apply JsMap_get_None. rewrite map_map. simpl.
  intros (x & -> & Hx)%list_elem_of_fmap. by apply (Hne x).
Qed.

Lemma cloud_views_fresh (cps : list CloudProviderData.t) (o : ReasoningProviders) :
  NoDup (map CloudProviderData.id cps) →
  (∀ cp, cp ∈ cps →
         CloudProviderData.id cp ≠ "__proto__" ∧ JsMap.get (CloudProviderData.id cp) o = None) →
  fold_left
    (fun providers cloudProvider =>
       JsObject.assign (CloudProviderData.id cloudProvider) (cloud_view cloudProvider)
         providers)
    cps o
  = o ++ map (fun cp => (CloudProviderData.id cp, cloud_view cp)) cps.
Proof.
  revert o. induction cps as [|c cps IH]; intros o Hnd Hfresh; simpl.
  - by rewrite app_nil_r.
  - apply NoDup_cons in Hnd as [Hc Hnd].
    destruct (Hfresh c ltac:(by left)) as [Hproto Hget].
    unfold JsObject.assign at 2. apply String.eqb_neq in Hproto as ->.
    rewrite JsMap_set_fresh by done. rewrite IH; [by rewrite <- app_assoc | done |].
    intros cp Hcp. destruct (Hfresh cp ltac:(by right)) as [Hp Hg]. split; [done |].
    apply JsMap_get_snoc; [done |]. intros Heq. apply Hc. rewrite Heq.
    apply list_elem_of_fmap. by exists cp.
Qed.

Lemma entries_named {V} (o : JsObject.t V) :
  (∀ e, e ∈ o → JsObject.array_index (fst e) = None) → JsObject.entries o = o.
Proof.
  intros Hnamed. unfold JsObject.entries, JsObject.index_entries, JsObject.named_entries.
  assert (omap (fun e : string * V => (fun n => (n, e)) <$> JsObject.array_index (fst e)) o
          = []) as ->.
  { induction o as [|e o IH]; [done |]. simpl.
    rewrite (Hnamed e) by (by left). simpl. apply IH.
    intros e' He'. apply Hnamed. by right. }
  simpl. unfold JsObject.t in *. induction o as [|e o IH]; [done |].
  rewrite filter_cons_True by (apply Hnamed; by left).
  f_equal. apply IH. intros e' He'. apply Hnamed. by right.
Qed.

(** When the cloud providers of the catalog have pairwise distinct ids,
    none of which is an array index, ["local"] or ["__proto__"], the view
    lists the cloud providers in catalog order and the local bucket last;
    so the flattened view lists the cloud models in catalog order and then
    the local models in the order of [getAllModels]. *)
Theorem view_in_catalog_order (modelData : ModelRegistryData.t) :
  NoDup (map CloudProviderData.id (ModelRegistryData.cloudProviders modelData)) →
  (∀ cp, cp ∈ ModelRegistryData.cloudProviders modelData →
         JsObject.array_index (CloudProviderData.id cp) = None
         ∧ CloudProviderData.id cp ≠ "local"
         ∧ CloudProviderData.id cp ≠ "__proto__") →
  JsObject.entries (REASONING_PROVIDERS modelData)
  = map (fun cp => (CloudProviderData.id cp, cloud_view cp))
      (ModelRegistryData.cloudProviders modelData)
    ++ [("local", local_view modelData)]
  ∧ map (fun x => (provider x, value (base x))) (getAllReasoningModels modelData)
    = flat_map (fun cp => map (fun cm => (CloudProviderData.id cp, CloudModelDefinition.id cm))
                            (CloudProviderData.models cp))
        (ModelRegistryData.cloudProviders modelData)
      ++ map (fun m => ("local", ModelDefinition.id (model m)))
           (ModelRegistry.getAllModels (modelRegistry modelData)).
Proof.
  intros Hnd Hids.
  assert (buildReasoningProviders modelData
          = map (fun cp => (CloudProviderData.id cp, cloud_view cp))
              (ModelRegistryData.cloudProviders modelData)
            ++ [("local", local_view modelData)]) as Hbuild.
  { unfold buildReasoningProviders, ModelRegistry.getCloudProviders.
    change (fold_left _ (ModelRegistryData.cloudProviders modelData) JsObject.empty)
      with (fold_left
              (fun providers cloudProvider =>
                 JsObject.assign (CloudProviderData.id cloudProvider)
                   (cloud_view cloudProvider) providers)
              (ModelRegistryData.cloudProviders modelData) []).
    rewrite cloud_views_fresh; [| done | intros cp Hcp; split; [by apply Hids | done]].
    simpl. unfold JsObject.assign. simpl.
    apply JsMap_set_fresh, JsMap_get_fmap_None. intros cp Hcp. by apply Hids. }
  assert (JsObject.entries (REASONING_PROVIDERS modelData)
          = map (fun cp => (CloudProviderData.id cp, cloud_view cp))
              (ModelRegistryData.cloudProviders modelData)
            ++ [("local", local_view modelData)]) as Hentries.
  { unfold REASONING_PROVIDERS. rewrite Hbuild. apply entries_named.
    intros e [(cp & -> & Hcp)%list_elem_of_fmap| ->%list_elem_of_singleton]%elem_of_app;
      [by apply Hids | done]. }
  split; [exact Hentries |].
  unfold getAllReasoningModels. rewrite Hentries, flat_map_app, map_app. f_equal.
  - clear. induction (ModelRegistryData.cloudProviders modelData) as [|cp cps IH]; [done |].
    simpl. rewrite map_app, IH. f_equal. by rewrite !map_map.
  - simpl. by rewrite app_nil_r, !map_map.
Qed.

Lemma view_in_catalog_order_witness :
  NoDup (map CloudProviderData.id (ModelRegistryData.cloudProviders sample_catalog))
  ∧ map (fun x => (provider x, value (base x))) (getAllReasoningModels sample_catalog)
    = [("openai", "gpt-5"); ("local", "qwen2.5-7b-instruct-q4_k_m");
       ("local", "claude-distill-qwen-7b"); ("local", "llama-3.2-3b-instruct-q4_k_m")].
Proof.
  assert (NoDup (map CloudProviderData.id (ModelRegistryData.cloudProviders sample_catalog)))
    as Hnd by (apply (bool_decide_unpack _); vm_compute; exact I).
  split; [exact Hnd |].
  refine (eq_trans (proj2 (view_in_catalog_order sample_catalog Hnd _)) _);
    [| reflexivity].
  intros cp ->%list_elem_of_singleton. by repeat split.
Defined.

(** * Transcription providers and the provider configuration *)

Lemma or_default_nonempty (s : string) : Js.or s "gpt-4o-mini-transcribe" ≠ "".
Proof.
  unfold Js.or. destruct (String.eqb s "") eqn:E; [done |]. by apply String.eqb_neq.
Qed.

Lemma find_first {A} (f : A → bool) (before after : list A) (x : A) :
  (∀ y, y ∈ before → f y = false) → f x = true → find f (before ++ x :: after) = Some x.
Proof.
  intros Hbefore Hx. rewrite find_app_first.
  rewrite (proj2 (find_none_iff f before) Hbefore). simpl. by rewrite Hx.
Qed.

(** The default transcription model is never the empty string.  The
    provider that decides is the first one, in catalog order, that carries
    the provider id: the default is the id of that provider's first model
    when that id is not empty, and ["gpt-4o-mini-transcribe"] when that id
    is empty or the provider has no models; when no provider carries the
    id, there are no models and the default is
    ["gpt-4o-mini-transcribe"]. *)
Theorem getDefaultTranscriptionModel_never_empty
    (transcriptionProviders : list TranscriptionProviderData.t) (providerId : string) :
  getDefaultTranscriptionModel transcriptionProviders providerId ≠ ""
  ∧ (∀ before p after,
       transcriptionProviders = before ++ p :: after →
       (∀ q, q ∈ before → TranscriptionProviderData.id q ≠ providerId) →
       TranscriptionProviderData.id p = providerId →
       getTranscriptionProvider transcriptionProviders providerId = Some p
       ∧ getTranscriptionModels transcriptionProviders providerId
         = TranscriptionProviderData.models p
       ∧ (∀ m ms, TranscriptionProviderData.models p = m :: ms →
                  TranscriptionModelDefinition.id m ≠ "" →
                  getDefaultTranscriptionModel transcriptionProviders providerId
                  = TranscriptionModelDefinition.id m)
       ∧ (∀ m ms, TranscriptionProviderData.models p = m :: ms →
                  TranscriptionModelDefinition.id m = "" →
                  getDefaultTranscriptionModel transcriptionProviders providerId
                  = "gpt-4o-mini-transcribe")
       ∧ (TranscriptionProviderData.models p = [] →
          getDefaultTranscriptionModel transcriptionProviders providerId
          = "gpt-4o-mini-transcribe"))
  ∧ (∀ p, getTranscriptionProvider transcriptionProviders providerId = Some p →
          TranscriptionProviderData.id p = providerId
          ∧ ∃ before after,
              transcriptionProviders = before ++ p :: after
              ∧ ∀ q, q ∈ before → TranscriptionProviderData.id q ≠ providerId)
  ∧ (getDefaultTranscriptionModel transcriptionProviders providerId = "gpt-4o-mini-transcribe"
     ∨ ∃ p m, p ∈ transcriptionProviders
              ∧ TranscriptionProviderData.id p = providerId
              ∧ head (TranscriptionProviderData.models p) = Some m
              ∧ getTranscriptionProvider transcriptionProviders providerId = Some p
              ∧ getDefaultTranscriptionModel transcriptionProviders providerId
                = TranscriptionModelDefinition.id m)
  ∧ ((∀ p, p ∈ transcriptionProviders → TranscriptionProviderData.id p ≠ providerId) →
     getTranscriptionProvider transcriptionProviders providerId = None
     ∧ getTranscriptionModels transcriptionProviders providerId = []
     ∧ getDefaultTranscriptionModel transcriptionProviders providerId
       = "gpt-4o-mini-transcribe").
Proof.
  unfold getDefaultTranscriptionModel, getTranscriptionModels, getTranscriptionProvider,
    getTranscriptionProviders.
  split; [| split; [| split; [| split]]].
  - destruct (find _ _) as [p|]; [| done].
    destruct (TranscriptionProviderData.models p); [done | apply or_default_nonempty].
  - intros before p after -> Hbefore Hp.
    rewrite find_first;
      [| intros q Hq; by apply String.eqb_neq, Hbefore | by apply String.eqb_eq].
    split; [done |]. split; [done |]. split; [| split].
    + intros m ms -> Hm. unfold Js.or. by apply String.eqb_neq in Hm as ->.
    + intros m ms -> Hm. unfold Js.or. by rewrite Hm.
    + by intros ->.
  - intros p Hfind. split; [apply find_some in Hfind as [_ Heq]; by apply String.eqb_eq |].
    clear -Hfind. induction transcriptionProviders as [|q tps IH]; [done |].
    simpl in Hfind. destruct (String.eqb (TranscriptionProviderData.id q) providerId) eqn:E.
    + injection Hfind as ->. exists [], tps. split; [done |].
      intros q Hq. by apply elem_of_nil in Hq.
    + destruct (IH Hfind) as (before & after & -> & Hbefore).
      exists (q :: before), after. split; [done |].
      intros q' [->|Hq']%elem_of_cons; [by apply String.eqb_neq | by apply Hbefore].
  - destruct (find _ _) as [p|] eqn:Hfind; [| by left].
    destruct (TranscriptionProviderData.models p) as [|m ms] eqn:Hms; [by left |].
    unfold Js.or. destruct (String.eqb _ "") eqn:E; [by left |].
    right. exists p, m. apply find_some in Hfind as [Hin Heq].
    rewrite Hms. repeat split; try done; [by apply list_elem_of_In | by apply String.eqb_eq].
  - intros Hnone.
    assert (find (fun p => String.eqb (TranscriptionProviderData.id p) providerId)
              transcriptionProviders = None) as ->; [| done].
    apply find_none_iff. intros p Hp. by apply String.eqb_neq, Hnone.
Qed.

(** A provider that the heuristic rules name has an entry in
    [PROVIDER_CONFIG], and the entry asks for no base URL: on an identifier
    that the view does not list, the resolver returns the empty string or
    the key of such an entry. *)
Theorem heuristic_providers_configured (modelData : ModelRegistryData.t) (modelId : string) :
  modelId ∉ map (fun m => value (base m)) (getAllReasoningModels modelData) →
  getModelProvider modelData modelId = ""
  ∨ ∃ config, JsMap.get (getModelProvider modelData modelId) PROVIDER_CONFIG = Some config
              ∧ baseStorageKey config = None.
Proof.
  intros Hmiss. unfold getModelProvider.
  rewrite (find_value_none (fun m => value (base m))) by done.
  rewrite heuristics_follow_table.
  cbn [resolve_by_table heuristic_table resolves_to].
  repeat (destruct (rule_applies modelId _); [right; eexists; split; reflexivity |]).
  by left.
Qed.

Lemma heuristic_providers_configured_witness :
  ("mixtral-8x7b-32768" ∉ map (fun m => value (base m)) (getAllReasoningModels sample_catalog))
  ∧ (getModelProvider sample_catalog "mixtral-8x7b-32768" = ""
     ∨ ∃ config,
         JsMap.get (getModelProvider sample_catalog "mixtral-8x7b-32768") PROVIDER_CONFIG
         = Some config
         ∧ baseStorageKey config = None).
Proof.
  assert ("mixtral-8x7b-32768"
            ∉ map (fun m => value (base m)) (getAllReasoningModels sample_catalog)) as Hmiss
    by (apply (bool_decide_unpack _); vm_compute; exact I).
  split; [exact Hmiss |].
  exact (heuristic_providers_configured sample_catalog "mixtral-8x7b-32768" Hmiss).
Defined.

(** * Further properties of the settings hook *)

Lemma world_eq (w1 w2 : World) :
  localStorage w1 = localStorage w2 → effects w1 = effects w2 → w1 = w2.
Proof. destruct w1, w2. simpl. by intros -> ->. Qed.

Lemma if_defined_stores {T} (ser : T → string) (field : option T) (set : T → Action)
    (key k : string) (w : World) :
  (∀ v w', localStorage (set v w') = <[key := ser v]> (localStorage w')) →
  localStorage (if_defined field set w) !! k
  = match (if String.eqb k key then ser <$> field else None) with
    | Some s => Some s
    | None => localStorage w !! k
    end.
Proof.
  intros Hset. destruct field as [v|]; simpl.
  - rewrite Hset. destruct (String.eqb k key) eqn:E.
    + apply String.eqb_eq in E as ->. apply lookup_insert_eq.
    + apply String.eqb_neq in E. by apply lookup_insert_ne.
  - by destruct (String.eqb k key).
Qed.

(** Case analysis on the key of a lookup, one literal key after the other. *)
Ltac by_key k :=
  repeat match goal with
         | |- context [String.eqb k ?key] =>
             let E := fresh "E" in
             destruct (String.eqb k key) eqn:E;
             [apply String.eqb_eq in E; subst k; cbn;
              repeat match goal with
                     | |- context [_ <$> ?o] => destruct o; cbn
                     end;
              repeat match goal with
                     | |- context [match ?o with Some _ => _ | None => _ end] => destruct o
                     end; reflexivity
             |]
         end.

Lemma if_defined_plain_effects {T} (field : option T) (set : T → Action) (w : World) :
  (∀ v w', effects (set v w') = effects w') →
  effects (if_defined field set w) = effects w.
Proof. intros Hset. destruct field; simpl; [apply Hset | done]. Qed.

Section SettingsFurther.

Variable modelData : ModelRegistryData.t.
Variable API_ENDPOINTS : ApiEndpoints.
Variable electronAPI : option ElectronAPI.

Local Notation "'hook'" := (useSettings modelData API_ENDPOINTS electronAPI).

Lemma updateTranscriptionSettings_unfold (w0 : World) (settings : TranscriptionSettings) :
  updateTranscriptionSettings (hook w0) settings
  = (if_defined (ts_useLocalWhisper settings) (setUseLocalWhisper (hook w0)) ;;
     if_defined (ts_whisperModel settings) (setWhisperModel (hook w0)) ;;
     if_defined (ts_allowOpenAIFallback settings) (setAllowOpenAIFallback (hook w0)) ;;
     if_defined (ts_allowLocalFallback settings) (setAllowLocalFallback (hook w0)) ;;
     if_defined (ts_fallbackWhisperModel settings) (setFallbackWhisperModel (hook w0)) ;;
     if_defined (ts_preferredLanguage settings) (setPreferredLanguage (hook w0)) ;;
     if_defined (ts_cloudTranscriptionProvider settings)
       (setCloudTranscriptionProvider (hook w0)) ;;
     if_defined (ts_cloudTranscriptionModel settings) (setCloudTranscriptionModel (hook w0)) ;;
     if_defined (ts_cloudTranscriptionBaseUrl settings)
       (setCloudTranscriptionBaseUrl (hook w0)))%action.
Proof. reflexivity. Qed.

Lemma updateTranscriptionSettings_lookup (w0 w : World) (settings : TranscriptionSettings)
    (k : string) :
  localStorage (updateTranscriptionSettings (hook w0) settings w) !! k
  = match transcription_field settings k with
    | Some v => Some v
    | None => localStorage w !! k
    end.
Proof.
  rewrite updateTranscriptionSettings_unfold. unfold seq, transcription_field.
  rewrite (if_defined_stores String_ _ _ "cloudTranscriptionBaseUrl") by done.
  rewrite (if_defined_stores String_ _ _ "cloudTranscriptionModel") by done.
  rewrite (if_defined_stores String_ _ _ "cloudTranscriptionProvider") by done.
  rewrite (if_defined_stores String_ _ _ "preferredLanguage") by done.
  rewrite (if_defined_stores String_ _ _ "fallbackWhisperModel") by done.
  rewrite (if_defined_stores Js.String_of_bool _ _ "allowLocalFallback") by done.
  rewrite (if_defined_stores Js.String_of_bool _ _ "allowOpenAIFallback") by done.
  rewrite (if_defined_stores String_ _ _ "whisperModel") by done.
  rewrite (if_defined_stores Js.String_of_bool _ _ "useLocalWhisper") by done.
  by_key k. done.
Qed.

Lemma updateTranscriptionSettings_effects (w0 w : World) (settings : TranscriptionSettings) :
  effects (updateTranscriptionSettings (hook w0) settings w) = effects w.
Proof.
  rewrite updateTranscriptionSettings_unfold. unfold seq.
  by rewrite !if_defined_plain_effects.
Qed.

Lemma updateReasoningSettings_lookup (w0 w : World) (settings : ReasoningSettings)
    (k : string) :
  localStorage (updateReasoningSettings (hook w0) settings w) !! k
  = match reasoning_field settings k with
    | Some v => Some v
    | None => localStorage w !! k
    end.
Proof.
  rewrite updateReasoningSettings_unfold. unfold seq, reasoning_field.
  rewrite (if_defined_stores String_ _ _ "cloudReasoningBaseUrl") by done.
  rewrite (if_defined_stores String_ _ _ "reasoningModel") by done.
  rewrite (if_defined_stores Js.String_of_bool _ _ "useReasoningModel") by done.
  by_key k. done.
Qed.

Lemma updateReasoningSettings_effects (w0 w : World) (settings : ReasoningSettings) :
  effects (updateReasoningSettings (hook w0) settings w) = effects w.
Proof.
  rewrite updateReasoningSettings_unfold. unfold seq.
  by rewrite !if_defined_plain_effects.
Qed.

(** After [updateTranscriptionSettings], each of the nine transcription
    cells reads the value of its field when the field is present and its
    former value otherwise; no other storage key changes and no effect
    fires. *)
Theorem updateTranscriptionSettings_applies (w : World) (settings : TranscriptionSettings) :
  useLocalWhisper (hook (updateTranscriptionSettings (hook w) settings w))
  = default (useLocalWhisper (hook w)) (ts_useLocalWhisper settings)
  ∧ whisperModel (hook (updateTranscriptionSettings (hook w) settings w))
    = default (whisperModel (hook w)) (ts_whisperModel settings)
  ∧ allowOpenAIFallback (hook (updateTranscriptionSettings (hook w) settings w))
    = default (allowOpenAIFallback (hook w)) (ts_allowOpenAIFallback settings)
  ∧ allowLocalFallback (hook (updateTranscriptionSettings (hook w) settings w))
    = default (allowLocalFallback (hook w)) (ts_allowLocalFallback settings)
  ∧ fallbackWhisperModel (hook (updateTranscriptionSettings (hook w) settings w))
    = default (fallbackWhisperModel (hook w)) (ts_fallbackWhisperModel settings)
  ∧ preferredLanguage (hook (updateTranscriptionSettings (hook w) settings w))
    = default (preferredLanguage (hook w)) (ts_preferredLanguage settings)
  ∧ cloudTranscriptionProvider (hook (updateTranscriptionSettings (hook w) settings w))
    = default (cloudTranscriptionProvider (hook w)) (ts_cloudTranscriptionProvider settings)
  ∧ cloudTranscriptionModel (hook (updateTranscriptionSettings (hook w) settings w))
    = default (cloudTranscriptionModel (hook w)) (ts_cloudTranscriptionModel settings)
  ∧ cloudTranscriptionBaseUrl (hook (updateTranscriptionSettings (hook w) settings w))
    = default (cloudTranscriptionBaseUrl (hook w)) (ts_cloudTranscriptionBaseUrl settings)
  ∧ effects (updateTranscriptionSettings (hook w) settings w) = effects w
  ∧ ∀ k, k ∉ ["useLocalWhisper"; "whisperModel"; "allowOpenAIFallback"; "allowLocalFallback";
              "fallbackWhisperModel"; "preferredLanguage"; "cloudTranscriptionProvider";
              "cloudTranscriptionModel"; "cloudTranscriptionBaseUrl"] →
         localStorage (updateTranscriptionSettings (hook w) settings w) !! k
         = localStorage w !! k.
Proof.
  pose proof (updateTranscriptionSettings_lookup w w settings) as Hlk.
  pose proof (updateTranscriptionSettings_effects w w settings) as Heff.
  set (w' := updateTranscriptionSettings (hook w) settings w) in *. clearbody w'.
  repeat split; try exact Heff.
  1-9: simpl; rewrite Hlk; cbn;
    match goal with |- context [default _ ?o] => destruct o as [[]|] || destruct o end;
    reflexivity.
  intros k Hk. rewrite Hlk.
  assert (transcription_field settings k = None) as ->; [| done].
  unfold transcription_field.
  repeat match goal with
         | |- context [String.eqb k ?key] =>
             let E := fresh "E" in
             destruct (String.eqb k key) eqn:E;
             [apply String.eqb_eq in E; subst k; exfalso; apply Hk; in_list |]
         end.
  done.
Qed.

(** Every setter of the hook is read back: after a setter has run, the
    hook reads the value that was set, for each of the twenty cells; the
    activation mode is read back when it is ["tap"] or ["push"], and any
    other string that is set is read as ["tap"]. *)
Theorem setters_read_back (w : World) :
  (∀ v, useLocalWhisper (hook (setUseLocalWhisper (hook w) v w)) = v)
  ∧ (∀ v, whisperModel (hook (setWhisperModel (hook w) v w)) = v)
  ∧ (∀ v, allowOpenAIFallback (hook (setAllowOpenAIFallback (hook w) v w)) = v)
  ∧ (∀ v, allowLocalFallback (hook (setAllowLocalFallback (hook w) v w)) = v)
  ∧ (∀ v, fallbackWhisperModel (hook (setFallbackWhisperModel (hook w) v w)) = v)
  ∧ (∀ v, preferredLanguage (hook (setPreferredLanguage (hook w) v w)) = v)
  ∧ (∀ v, cloudTranscriptionProvider (hook (setCloudTranscriptionProvider (hook w) v w)) = v)
  ∧ (∀ v, cloudTranscriptionModel (hook (setCloudTranscriptionModel (hook w) v w)) = v)
  ∧ (∀ v, cloudTranscriptionBaseUrl (hook (setCloudTranscriptionBaseUrl (hook w) v w)) = v)
  ∧ (∀ v, cloudReasoningBaseUrl (hook (setCloudReasoningBaseUrl (hook w) v w)) = v)
  ∧ (∀ v, useReasoningModel (hook (setUseReasoningModel (hook w) v w)) = v)
  ∧ (∀ v, reasoningModel (hook (setReasoningModel (hook w) v w)) = v)
  ∧ (∀ v, openaiApiKey (hook (setOpenaiApiKey (hook w) v w)) = v)
  ∧ (∀ v, anthropicApiKey (hook (setAnthropicApiKey (hook w) v w)) = v)
  ∧ (∀ v, geminiApiKey (hook (setGeminiApiKey (hook w) v w)) = v)
  ∧ (∀ v, groqApiKey (hook (setGroqApiKey (hook w) v w)) = v)
  ∧ (∀ v, dictationKey (hook (setDictationKey (hook w) v w)) = v)
  ∧ (∀ v, preferBuiltInMic (hook (setPreferBuiltInMic (hook w) v w)) = v)
  ∧ (∀ v, selectedMicDeviceId (hook (setSelectedMicDeviceId (hook w) v w)) = v)
  ∧ (∀ v, activationMode (hook (setActivationMode (hook w) v w))
          = if String.eqb v "push" then "push" else "tap")
  ∧ (∀ v, v = "tap" ∨ v = "push" →
          activationMode (hook (setActivationMode (hook w) v w)) = v).
Proof.
  repeat split; intros v; try (intros [-> | ->]);
    simpl; rewrite ?optional_call_storage; simpl;
    rewrite lookup_insert_eq; try (by destruct v); done.
Qed.

Lemma if_defined_api_effects (has_method : ElectronAPI → bool) (save : string → Effect)
    (provider : string) (field : option string) (set : string → Action) (w : World) :
  (∀ v w', effects (set v w')
           = effects w' ++ bridge_effects electronAPI has_method (save v)
               ++ [ClearApiKeyCache provider]) →
  effects (if_defined field set w)
  = effects w ++ api_key_effects electronAPI has_method save provider field.
Proof.
  intros Hset. destruct field; simpl; [apply Hset | by rewrite app_nil_r].
Qed.

Lemma api_setter_effects (has_method : ElectronAPI → bool) (e : Effect) (provider key : string)
    (local : string → Action) (w : World) :
  (∀ w', effects (local key w') = effects w') →
  effects ((local key ;; optional_call electronAPI has_method e ;;
            emit (ClearApiKeyCache provider))%action w)
  = effects w ++ bridge_effects electronAPI has_method e ++ [ClearApiKeyCache provider].
Proof.
  intros Hlocal. unfold seq. simpl.
  by rewrite optional_call_effects, Hlocal, <- app_assoc.
Qed.

Lemma updateApiKeys_effects_eq (w0 w : World) (keys : ApiKeySettings) :
  effects (updateApiKeys (hook w0) keys w)
  = effects w
      ++ api_key_effects electronAPI has_saveOpenAIKey SaveOpenAIKey "openai"
           (ak_openaiApiKey keys)
      ++ api_key_effects electronAPI has_saveAnthropicKey SaveAnthropicKey "anthropic"
           (ak_anthropicApiKey keys)
      ++ api_key_effects electronAPI has_saveGeminiKey SaveGeminiKey "gemini"
           (ak_geminiApiKey keys)
      ++ api_key_effects electronAPI has_saveGroqKey SaveGroqKey "groq" (ak_groqApiKey keys).
Proof.
  rewrite updateApiKeys_unfold. unfold seq.
  rewrite (if_defined_api_effects has_saveGroqKey SaveGroqKey "groq")
    by (intros; by apply api_setter_effects).
  rewrite (if_defined_api_effects has_saveGeminiKey SaveGeminiKey "gemini")
    by (intros; by apply api_setter_effects).
  rewrite (if_defined_api_effects has_saveAnthropicKey SaveAnthropicKey "anthropic")
    by (intros; by apply api_setter_effects).
  rewrite (if_defined_api_effects has_saveOpenAIKey SaveOpenAIKey "openai")
    by (intros; by apply api_setter_effects).
  by rewrite <- !app_assoc.
Qed.

Lemma ClearApiKeyCache_in_api_key_effects (has_method : ElectronAPI → bool)
    (save : string → Effect) (provider p : string) (field : option string) :
  (∀ key, save key ≠ ClearApiKeyCache p) →
  ClearApiKeyCache p ∈ api_key_effects electronAPI has_method save provider field
  ↔ p = provider ∧ is_Some field.
Proof.
  intros Hsave. unfold api_key_effects, bridge_effects. destruct field as [key|].
  - rewrite elem_of_app, list_elem_of_singleton. split.
    + intros [H|[= ->]]; [| by eauto].
      destruct electronAPI as [api|]; [| by apply elem_of_nil in H].
      destruct (has_method api); [| by apply elem_of_nil in H].
      apply list_elem_of_singleton in H. symmetry in H. by apply Hsave in H.
    + intros [-> _]. by right.
  - split; [by intros ?%elem_of_nil | by intros [_ [? ?]]].
Qed.

(** [updateApiKeys] fires the effects of the wrapped setters of the present
    fields, in the order openai, anthropic, gemini, groq: for each, the call
    over the bridge when the bridge offers it, then the invalidation of the
    provider's cached key.  A provider's cache is invalidated exactly when
    its field is present. *)
Theorem updateApiKeys_effects (w : World) (keys : ApiKeySettings) :
  effects (updateApiKeys (hook w) keys w)
  = effects w
      ++ api_key_effects electronAPI has_saveOpenAIKey SaveOpenAIKey "openai"
           (ak_openaiApiKey keys)
      ++ api_key_effects electronAPI has_saveAnthropicKey SaveAnthropicKey "anthropic"
           (ak_anthropicApiKey keys)
      ++ api_key_effects electronAPI has_saveGeminiKey SaveGeminiKey "gemini"
           (ak_geminiApiKey keys)
      ++ api_key_effects electronAPI has_saveGroqKey SaveGroqKey "groq" (ak_groqApiKey keys)
  ∧ ∀ p, ClearApiKeyCache p
           ∈ drop (length (effects w)) (effects (updateApiKeys (hook w) keys w))
         ↔ (p = "openai" ∧ is_Some (ak_openaiApiKey keys))
           ∨ (p = "anthropic" ∧ is_Some (ak_anthropicApiKey keys))
           ∨ (p = "gemini" ∧ is_Some (ak_geminiApiKey keys))
           ∨ (p = "groq" ∧ is_Some (ak_groqApiKey keys)).
Proof.
  split; [apply updateApiKeys_effects_eq |].
  intros p. rewrite updateApiKeys_effects_eq, drop_app_length, !elem_of_app.
  rewrite !ClearApiKeyCache_in_api_key_effects by done. tauto.
Qed.

(** The three batch updates write disjoint cells: applied one after the
    other, in either order, any two of them leave the same storage and the
    same effects. *)
Theorem batch_updates_commute (w : World) (transcription : TranscriptionSettings)
    (reasoning : ReasoningSettings) (keys : ApiKeySettings) :
  updateTranscriptionSettings (hook w) transcription
    (updateReasoningSettings (hook w) reasoning w)
  = updateReasoningSettings (hook w) reasoning
      (updateTranscriptionSettings (hook w) transcription w)
  ∧ updateApiKeys (hook w) keys (updateTranscriptionSettings (hook w) transcription w)
    = updateTranscriptionSettings (hook w) transcription (updateApiKeys (hook w) keys w)
  ∧ updateApiKeys (hook w) keys (updateReasoningSettings (hook w) reasoning w)
    = updateReasoningSettings (hook w) reasoning (updateApiKeys (hook w) keys w).
Proof.
  repeat split; apply world_eq.
  all: try (rewrite ?updateTranscriptionSettings_effects, ?updateReasoningSettings_effects,
              ?updateApiKeys_effects_eq,
              ?updateTranscriptionSettings_effects, ?updateReasoningSettings_effects;
            reflexivity).
  all: apply map_eq; intros k;
    rewrite ?updateTranscriptionSettings_lookup, ?updateReasoningSettings_lookup,
      ?updateApiKeys_storage,
      ?updateTranscriptionSettings_lookup, ?updateReasoningSettings_lookup;
    unfold transcription_field, reasoning_field, api_key_field;
    by_key k; reflexivity.
Qed.

(** The storage key that [PROVIDER_CONFIG] names for the API key of
    openai, anthropic, gemini and groq is the key that the provider's setter
    of the hook writes, and the keys that the custom endpoint names are
    those written by [setOpenaiApiKey] and [setCloudReasoningBaseUrl]. *)
Theorem provider_config_keys_written (w : World) (v : string) :
  (∀ k, JsMap.get "openai" PROVIDER_CONFIG ≫= apiKeyStorageKey = Some k →
        localStorage (setOpenaiApiKey (hook w) v w) !! k = Some v)
  ∧ (∀ k, JsMap.get "anthropic" PROVIDER_CONFIG ≫= apiKeyStorageKey = Some k →
          localStorage (setAnthropicApiKey (hook w) v w) !! k = Some v)
  ∧ (∀ k, JsMap.get "gemini" PROVIDER_CONFIG ≫= apiKeyStorageKey = Some k →
          localStorage (setGeminiApiKey (hook w) v w) !! k = Some v)
  ∧ (∀ k, JsMap.get "groq" PROVIDER_CONFIG ≫= apiKeyStorageKey = Some k →
          localStorage (setGroqApiKey (hook w) v w) !! k = Some v)
  ∧ (∀ k, JsMap.get "custom" PROVIDER_CONFIG ≫= apiKeyStorageKey = Some k →
          localStorage (setOpenaiApiKey (hook w) v w) !! k = Some v)
  ∧ (∀ k, JsMap.get "custom" PROVIDER_CONFIG ≫= baseStorageKey = Some k →
          localStorage (setCloudReasoningBaseUrl (hook w) v w) !! k = Some v)
  ∧ JsMap.get "local" PROVIDER_CONFIG ≫= apiKeyStorageKey = None
  ∧ ∀ pid config k, (pid, config) ∈ PROVIDER_CONFIG →
                    apiKeyStorageKey config = Some k ∨ baseStorageKey config = Some k →
                    k ∈ ["openaiApiKey"; "anthropicApiKey"; "geminiApiKey"; "groqApiKey";
                         "cloudReasoningBaseUrl"].
Proof.
  repeat split.
  1-6: intros k [= <-]; simpl; rewrite ?optional_call_storage; simpl;
    apply lookup_insert_eq.
  intros pid config k Hin Hk. unfold PROVIDER_CONFIG in Hin.
  repeat (apply elem_of_cons in Hin as [[= -> ->]|Hin];
          [simpl in Hk; destruct Hk as [Hk|Hk]; inversion Hk; subst; in_list |]).
  by apply elem_of_nil in Hin.
Qed.

(** The test playground reads the storage on its own.  It sees the same
    reasoning model as the hook, and the same provider whenever a model is
    selected (without a model it assumes ["openai"]); on the switch it
    agrees with the hook exactly when the stored string is ["true"] or
    ["false"], which is the case after [setUseReasoningModel]; when nothing
    is stored the hook reads the switch as on and the playground as off. *)
Theorem playground_and_hook (w : World) :
  pg_reasoningModel (playgroundSettings modelData w) = reasoningModel (hook w)
  ∧ (reasoningModel (hook w) ≠ "" →
     pg_reasoningProvider (playgroundSettings modelData w) = reasoningProvider (hook w))
  ∧ (reasoningModel (hook w) = "" →
     pg_reasoningProvider (playgroundSettings modelData w) = "openai")
  ∧ (pg_useReasoningModel (playgroundSettings modelData w) = useReasoningModel (hook w)
     ↔ localStorage w !! "useReasoningModel" = Some "true"
       ∨ localStorage w !! "useReasoningModel" = Some "false")
  ∧ (∀ v, pg_useReasoningModel
            (playgroundSettings modelData (setUseReasoningModel (hook w) v w)) = v)
  ∧ (localStorage w !! "useReasoningModel" = None →
     useReasoningModel (hook w) = true
     ∧ pg_useReasoningModel (playgroundSettings modelData w) = false).
Proof.
  assert (pg_reasoningModel (playgroundSettings modelData w) = reasoningModel (hook w)) as Hm.
  { simpl. destruct (localStorage w !! "reasoningModel") as [s|]; [| done].
    unfold Js.or, String_. destruct (String.eqb s "") eqn:E; [| done].
    by apply String.eqb_eq in E. }
  split; [exact Hm |].
  assert (pg_reasoningProvider (playgroundSettings modelData w)
          = if String.eqb (pg_reasoningModel (playgroundSettings modelData w)) ""
            then "openai"
            else getModelProvider modelData (pg_reasoningModel (playgroundSettings modelData w)))
    as Hp by reflexivity.
  rewrite Hm in Hp.
  split; [| split; [| split; [| split]]].
  - intros Hne. rewrite Hp. by apply String.eqb_neq in Hne as ->.
  - intros He. rewrite Hp, He. done.
  - simpl. destruct (localStorage w !! "useReasoningModel") as [s|].
    + split.
      * destruct (String.eqb s "true") eqn:Et; [apply String.eqb_eq in Et as ->; by left |].
        destruct (String.eqb s "false") eqn:Ef; [apply String.eqb_eq in Ef as ->; by right |].
        done.
      * by intros [[= ->]|[= ->]].
    + split; [done | by intros [|]].
  - intros v. simpl. rewrite lookup_insert_eq. by destruct v.
  - intros Hnone. simpl. by rewrite Hnone.
Qed.

End SettingsFurther.

(** * Templates without markers *)

Lemma replace_absent_marker (s pat replaceValue : string) :
  Js.includes s pat = false → Js.replace s pat replaceValue = s.
Proof.
  unfold Js.includes, Js.replace. by destruct (Js.indexOf s pat).
Qed.

(** A template that contains neither marker is returned as it is: the text
    and the system prompt are dropped, whatever they contain.  A template
    that lacks only ["{user}"] drops the text whenever the system prompt,
    free of dollar signs, does not bring a ["{user}"] of its own. *)
Theorem formatPrompt_without_markers (template text systemPrompt : string) :
  Js.includes template "{user}" = false →
  (Js.includes template "{system}" = false →
   createPromptFormatter template text systemPrompt = template)
  ∧ (Js.includes systemPrompt "$" = false →
     Js.includes (substitute_first "{system}" systemPrompt template) "{user}" = false →
     createPromptFormatter template text systemPrompt
     = substitute_first "{system}" systemPrompt template).
Proof.
  intros Huser. unfold createPromptFormatter. split.
  - intros Hsystem. by rewrite (replace_absent_marker template "{system}"),
      replace_absent_marker.
  - intros Hfree Hstill. rewrite (replace_substitute_first template) by done.
    by apply replace_absent_marker.
Qed.

Lemma formatPrompt_without_markers_witness :
  Js.includes "Fix the grammar." "{user}" = false
  ∧ createPromptFormatter "Fix the grammar." "teh cat" "be $& terse" = "Fix the grammar."
  ∧ createPromptFormatter "[{system}]" "teh cat" "be terse" = "[be terse]".
Proof.
  split; [reflexivity |]. split.
  - exact (proj1 (formatPrompt_without_markers "Fix the grammar." "teh cat" "be $& terse"
                    eq_refl) eq_refl).
  - exact (proj2 (formatPrompt_without_markers "[{system}]" "teh cat" "be terse" eq_refl)
             eq_refl eq_refl).
Defined.

Example getDefaultTranscriptionModel_samples :
  map (getDefaultTranscriptionModel sample_transcription) ["openai"; "custom"; "groq"; ""]
  = ["gpt-4o-transcribe"; "gpt-4o-mini-transcribe"; "gpt-4o-mini-transcribe";
     "gpt-4o-mini-transcribe"].
Proof. reflexivity. Qed.

Example getReasoningModelLabel_samples :
  map (getReasoningModelLabel sample_catalog)
    ["gpt-5"; "claude-distill-qwen-7b"; "claude-3-opus"; ""]
  = ["OpenAI GPT-5"; "Local AI claude-distill-qwen-7b"; "claude-3-opus"; ""].
Proof. reflexivity. Qed.
